(** * website/producer.py: a thread-safe fan-out producer

    A shallow embedding of [ProducerBase], [SimpleQueueProducer] and
    [NewsProducer], and the properties of the registry (registration,
    broadcast, poison) and of the worker loop ([run], [join],
    [generate_news]).

    Conventions.
    - A Python object is named by a [handle]; the registry's list
      [self.queues] holds handles, and the queue objects live in a heap, so
      that a queue registered twice is one object reached twice.
    - Every method of [ProducerBase] runs its body inside [with self.mutex],
      so the calls of all threads are serialised: a run of the system is a
      sequence of atomic calls.  The states of the model are the states in
      which the mutex is free.
    - A call ends in one of three ways: it returns, it raises, or it never
      returns (an insertion that waits for room in a full queue, with the
      mutex still held). *)

From Stdlib Require Import ZArith List Lia Bool Sorting.Sorted.
From stdpp Require Import gmap strings list pretty.

Local Open Scope Z_scope.

(** ** Python values *)

(** The identity of a Python object. *)
Definition handle := nat.

(** The dict literal built by [generate_news]: five fixed keys. *)
Record news := News {
  content : string;
  date : string;
  headline : string;
  icon : string;
  source : string
}.

(** What travels through the queues: [None] (the poison item), the news
    dicts of the worker, and integers as a stand-in for any other payload. *)
Inductive item :=
| PyNone
| PyInt (n : Z)
| PyNews (d : news).

Inductive exn :=
| Full            (* queue.Full *)
| ValueError      (* list.remove(x): x not in list; put with a negative timeout *)
| AttributeError. (* the registered object has no [put] *)

(** ** The subscriber queue: Python's [queue.Queue]

    [SimpleQueueProducer] is "a producer for the Queue implementation".  The
    class is the standard library's; what follows is its [put], with
    [maxsize <= 0] meaning unbounded.  No consumer thread is part of the
    model, so the items of a queue are all the items it has received, and a
    put that waits for a free slot waits for ever. *)

Record Queue := MkQueue {
  maxsize : Z;
  items : list item
}.

Inductive put_result (A : Type) :=
| PutOk (a : A)
| PutRaise (e : exn)
| PutWait.
Arguments PutOk {A} a.
Arguments PutRaise {A} e.
Arguments PutWait {A}.

Definition Queue_qsize (q : Queue) : Z := Z.of_nat (length (items q)).

Definition Queue_append (x : item) (q : Queue) : Queue :=
  {| maxsize := maxsize q; items := items q ++ [x] |}.

(** [Queue.put(item, block, timeout)] *)
Definition Queue_put (x : item) (block : bool) (timeout : option Z) (q : Queue)
  : put_result Queue :=
  if 0 <? maxsize q then
    if negb block then
      if maxsize q <=? Queue_qsize q then PutRaise Full
      else PutOk (Queue_append x q)
    else
      match timeout with
      | None =>
          if maxsize q <=? Queue_qsize q then PutWait
          else PutOk (Queue_append x q)
      | Some t =>
          if t <? 0 then PutRaise ValueError
          else if maxsize q <=? Queue_qsize q then PutRaise Full
          else PutOk (Queue_append x q)
      end
  else PutOk (Queue_append x q).

(** ** The state of a producer *)

(** How one insertion attempt ended. *)
Inductive put_tag :=
| Delivered
| Failed (e : exn)
| Stuck.

(** The observable history of a producer, oldest event first.  A broadcast
    is numbered by the count of broadcasts before it. *)
Inductive event :=
| EvProduce (k : nat) (x : item) (qs : list handle)
    (* produce(x) took the mutex with [qs] registered *)
| EvPoison (k : nat) (qs : list handle)
    (* poison() took the mutex with [qs] registered *)
| EvPut (k : nat) (q : handle) (x : item) (r : put_tag)
    (* broadcast [k] called _put(x, q) *)
| EvTick (n : nat)
    (* the worker read queue_count = n at the top of a tick *)
| EvLog (level msg : string).
    (* _log(level, msg) *)

Record state := State {
  queues : list handle;          (* self.queues *)
  heap : gmap handle Queue;      (* the queue objects *)
  history : list event
}.

Definition set_queues (l : list handle) (s : state) : state :=
  {| queues := l; heap := heap s; history := history s |}.

Definition set_heap (h : gmap handle Queue) (s : state) : state :=
  {| queues := queues s; heap := h; history := history s |}.

Definition record (e : event) (s : state) : state :=
  {| queues := queues s; heap := heap s; history := history s ++ [e] |}.

(** ProducerBase.__init__ *)
Definition init (h : gmap handle Queue) : state :=
  {| queues := []; heap := h; history := [] |}.

Definition is_broadcast (e : event) : bool :=
  match e with
  | EvProduce _ _ _ | EvPoison _ _ => true
  | _ => false
  end.

Definition is_produce (e : event) : bool :=
  match e with EvProduce _ _ _ => true | _ => false end.

Definition is_poison (e : event) : bool :=
  match e with EvPoison _ _ => true | _ => false end.

(** The number of broadcasts so far. *)
Definition ncalls (l : list event) : nat := length (List.filter is_broadcast l).

(** The end of a call. *)
Inductive outcome (A : Type) :=
| Return (a : A) (s : state)
| Raise (e : exn) (s : state)
| Blocks (s : state).
Arguments Return {A} a s.
Arguments Raise {A} e s.
Arguments Blocks {A} s.

Definition final {A} (o : outcome A) : state :=
  match o with
  | Return _ s | Raise _ s | Blocks s => s
  end.

(** [list.remove(x)]: drop the first element equal to [x]; [None] stands for
    the ValueError raised when there is none. *)
Fixpoint list_remove (x : handle) (l : list handle) : option (list handle) :=
  match l with
  | [] => None
  | y :: l' =>
      if decide (y = x) then Some l'
      else match list_remove x l' with
           | Some r => Some (y :: r)
           | None => None
           end
  end.

(** ** ProducerBase *)

Section ProducerBase.

(** The abstract method [_put(self, item, queue)]. *)
Variable _put : item -> handle -> gmap handle Queue -> put_result (gmap handle Queue).

Definition add_queue (queue : handle) (s : state) : outcome unit :=
  Return tt (set_queues (queues s ++ [queue]) s).

Definition remove_queue (queue : handle) (s : state) : outcome unit :=
  match list_remove queue (queues s) with
  | Some l => Return tt (set_queues l s)
  | None => Raise ValueError s
  end.

Definition queue_count (s : state) : outcome nat :=
  Return (length (queues s)) s.

(** [for queue in self.queues: self._put(item, queue)], as part of
    broadcast number [k]. *)
Fixpoint broadcast (k : nat) (x : item) (qs : list handle) (s : state)
  : outcome unit :=
  match qs with
  | [] => Return tt s
  | q :: qs' =>
      match _put x q (heap s) with
      | PutOk h' => broadcast k x qs' (record (EvPut k q x Delivered) (set_heap h' s))
      | PutRaise e => Raise e (record (EvPut k q x (Failed e)) s)
      | PutWait => Blocks (record (EvPut k q x Stuck) s)
      end
  end.

Definition produce (x : item) (s : state) : outcome unit :=
  let k := ncalls (history s) in
  broadcast k x (queues s) (record (EvProduce k x (queues s)) s).

Definition get_poison : item := PyNone.

Definition poison (s : state) : outcome unit :=
  let k := ncalls (history s) in
  broadcast k get_poison (queues s) (record (EvPoison k (queues s)) s).

End ProducerBase.

(** ** SimpleQueueProducer *)

(** [queue.put(item, self.block, self.timeout)] on the object [queue]. *)
Definition SimpleQueueProducer_put (block : bool) (timeout : option Z)
    (x : item) (queue : handle) (h : gmap handle Queue)
  : put_result (gmap handle Queue) :=
  match h !! queue with
  | None => PutRaise AttributeError
  | Some q =>
      match Queue_put x block timeout q with
      | PutOk q' => PutOk (<[queue := q']> h)
      | PutRaise e => PutRaise e
      | PutWait => PutWait
      end
  end.

(** ** Sequences of registry calls *)

(** The public calls of a producer, as any thread may issue them.  The mutex
    orders them, so a concurrent use of the registry is one such sequence. *)
Inductive call :=
| AddQueue (q : handle)
| RemoveQueue (q : handle)
| QueueCount
| Produce (x : item)
| Poison.

(** How a call ended, as its caller sees it. *)
Inductive result :=
| Returned (v : option nat)
| Raised (e : exn)
| Blocked.

Definition untyped {A} (f : A -> option nat) (o : outcome A) : result * state :=
  match o with
  | Return a s => (Returned (f a), s)
  | Raise e s => (Raised e, s)
  | Blocks s => (Blocked, s)
  end.

Section Calls.

Variable _put : item -> handle -> gmap handle Queue -> put_result (gmap handle Queue).

Definition do_call (c : call) (s : state) : result * state :=
  match c with
  | AddQueue q => untyped (fun _ => None) (add_queue q s)
  | RemoveQueue q => untyped (fun _ => None) (remove_queue q s)
  | QueueCount => untyped Some (queue_count s)
  | Produce x => untyped (fun _ => None) (produce _put x s)
  | Poison => untyped (fun _ => None) (poison _put s)
  end.

(** Run the calls in order.  A call that never returns keeps the mutex, so
    nothing after it takes place. *)
Fixpoint exec (cs : list call) (s : state) : list result * state :=
  match cs with
  | [] => ([], s)
  | c :: cs' =>
      match do_call c s with
      | (Blocked, s') => ([Blocked], s')
      | (r, s') => let (rs, s'') := exec cs' s' in (r :: rs, s'')
      end
  end.

End Calls.

(** Counting over a sequence of calls and their results. *)
Definition is_add (c : call) : bool :=
  match c with AddQueue _ => true | _ => false end.

Definition is_completed_remove (cr : call * result) : bool :=
  match cr with
  | (RemoveQueue _, Returned _) => true
  | _ => false
  end.

Definition adds (cs : list call) : nat := length (List.filter is_add cs).

Definition completed_removes (cs : list call) (rs : list result) : nat :=
  length (List.filter is_completed_remove (zip cs rs)).

Definition registration_only (c : call) : bool :=
  match c with
  | AddQueue _ | RemoveQueue _ | QueueCount => true
  | _ => false
  end.

(** ** Reading the history *)

(** The events that a call (or a run) from [s] to [s'] added. *)
Definition during (s s' : state) : list event :=
  drop (length (history s)) (history s').

(** The insertion attempts: every call of [_put], in order. *)
Definition put_calls (l : list event) : list (handle * item) :=
  omap (fun e => match e with
                 | EvPut _ q x _ => Some (q, x)
                 | _ => None
                 end) l.

(** The insertions that returned. *)
Definition deliveries (l : list event) : list (handle * item) :=
  omap (fun e => match e with
                 | EvPut _ q x Delivered => Some (q, x)
                 | _ => None
                 end) l.

(** The events of a run of insertions that all returned. *)
Definition delivered_to (k : nat) (x : item) (qs : list handle) : list event :=
  map (fun q => EvPut k q x Delivered) qs.

(** What queue [q] received: the broadcast number and the item of every
    insertion into [q] that returned, oldest first. *)
Definition received (q : handle) (l : list event) : list (nat * item) :=
  omap (fun e => match e with
                 | EvPut k q' x Delivered => if decide (q' = q) then Some (k, x) else None
                 | _ => None
                 end) l.

(** The queue [Q] once it has received the items of [l]. *)
Definition after_receiving (l : list (nat * item)) (Q : Queue) : Queue :=
  {| maxsize := maxsize Q; items := items Q ++ map snd l |}.

(** The item of every broadcast, in the order the calls took the mutex. *)
Definition broadcasts (l : list event) : list item :=
  omap (fun e => match e with
                 | EvProduce _ x _ => Some x
                 | EvPoison _ _ => Some PyNone
                 | _ => None
                 end) l.

(** The numbering of a history that continues after [n] broadcasts, the
    last of which ([cur], if it is still in progress) carries the item of
    the insertions that follow. *)
Fixpoint numbered (n : nat) (cur : option item) (l : list event) : Prop :=
  match l with
  | [] => True
  | EvProduce k x _ :: l' => k = n /\ numbered (S n) (Some x) l'
  | EvPoison k _ :: l' => k = n /\ numbered (S n) (Some PyNone) l'
  | EvPut k _ x _ :: l' => S k = n /\ cur = Some x /\ numbered n cur l'
  | _ :: l' => numbered n cur l'
  end.

(** ** NewsProducer *)

(** Unary plus on an int ([int.__pos__]); [++n] is [+(+n)]. *)
Definition pos (n : Z) : Z := n.

(** ["%d" % n] for an int [n]. *)
Definition fmt_d (n : Z) : string := pretty n.

(** [generate_news(news_count)]; [today] is what [strftime('%Y/%m/%d')]
    gives at the time of the call. *)
Definition generate_news (today : string) (news_count : Z) : news :=
  {| content := "The content for the news story " +:+ fmt_d (pos (pos news_count)) +:+ ".";
     date := today;
     headline := "News story " +:+ fmt_d news_count;
     icon := "";
     source := "Source " +:+ fmt_d news_count |}.

(** Where the worker thread stands in [run].  The shared data ([stop_request],
    the registry) is read or written once per position, so that the calls of
    other threads may fall between any two of them. *)
Inductive position :=
| NotStarted
| LoopTest     (* line 76: the while condition, the tick boundary *)
| CountTest    (* line 77: if self.queue_count > 0 *)
| Producing    (* lines 80-81: generate_news and produce *)
| Sleeping     (* line 82: sleep(2) *)
| Poisoning    (* line 84: poison() *)
| Finished     (* run returned *)
| Crashed (e : exn)  (* run raised: the thread is dead *)
| Waiting.     (* stuck in a put, holding the mutex *)

Record NewsProducer := MkNewsProducer {
  base : state;
  news_count : Z;
  stop_request : bool;
  at_pos : position;
  today : string
}.

Definition goto (p : position) (w : NewsProducer) : NewsProducer :=
  {| base := base w; news_count := news_count w; stop_request := stop_request w;
     at_pos := p; today := today w |}.

Definition set_base (s : state) (w : NewsProducer) : NewsProducer :=
  {| base := s; news_count := news_count w; stop_request := stop_request w;
     at_pos := at_pos w; today := today w |}.

Definition set_news_count (n : Z) (w : NewsProducer) : NewsProducer :=
  {| base := base w; news_count := n; stop_request := stop_request w;
     at_pos := at_pos w; today := today w |}.

Definition set_stop (w : NewsProducer) : NewsProducer :=
  {| base := base w; news_count := news_count w; stop_request := true;
     at_pos := at_pos w; today := today w |}.

Definition set_today (d : string) (w : NewsProducer) : NewsProducer :=
  {| base := base w; news_count := news_count w; stop_request := stop_request w;
     at_pos := at_pos w; today := d |}.

Definition _log (level msg : string) (w : NewsProducer) : NewsProducer :=
  set_base (record (EvLog level msg) (base w)) w.

(** NewsProducer.__init__ over the queue objects [h]. *)
Definition new_NewsProducer (h : gmap handle Queue) (d : string) : NewsProducer :=
  {| base := init h; news_count := 0; stop_request := false;
     at_pos := NotStarted; today := d |}.

(** The limit of the while loop. *)
Definition limit : Z := 10.

Section NewsProducer.

(** The constructor arguments of SimpleQueueProducer. *)
Variable block : bool.
Variable timeout : option Z.

Definition after_call (next : position) (w : NewsProducer) (o : outcome unit)
  : NewsProducer :=
  match o with
  | Return _ s => goto next (set_base s w)
  | Raise e s => goto (Crashed e) (set_base s w)
  | Blocks s => goto Waiting (set_base s w)
  end.

(** One atomic step of the thread that executes [run]. *)
Definition run_step (w : NewsProducer) : NewsProducer :=
  match at_pos w with
  | LoopTest =>
      if negb (stop_request w) && (news_count w <? limit)
      then goto CountTest w
      else goto Poisoning (_log "info" "Sending poison pill!" w)
  | CountTest =>
      match queue_count (base w) with
      | Return n s =>
          let w := set_base (record (EvTick n) s) w in
          if (0 <? n)%nat then
            let w := set_news_count (news_count w + 1) w in
            let w := _log "info" ("Producing news: " +:+ fmt_d (news_count w)) w in
            goto Producing w
          else goto Sleeping w
      | Raise e s => goto (Crashed e) (set_base s w)
      | Blocks s => goto Waiting (set_base s w)
      end
  | Producing =>
      let item := PyNews (generate_news (today w) (news_count w)) in
      after_call Sleeping w
        (produce (SimpleQueueProducer_put block timeout) item (base w))
  | Sleeping => goto LoopTest w
  | Poisoning =>
      after_call Finished w
        (poison (SimpleQueueProducer_put block timeout) (base w))
  | NotStarted | Finished | Crashed _ | Waiting => w
  end.

(** NewsProducer.join: set the stop request, then wait for the thread (the
    wait changes nothing in the producer). *)
Definition join (w : NewsProducer) : NewsProducer := set_stop w.

(** Thread.start *)
Definition start (w : NewsProducer) : NewsProducer :=
  match at_pos w with
  | NotStarted => goto LoopTest w
  | _ => w
  end.

(** A registry call of another thread.  While the worker is stuck in a
    put it holds the mutex and the caller waits. *)
Definition other_thread (c : state -> state) (w : NewsProducer) : NewsProducer :=
  match at_pos w with
  | Waiting => w
  | _ => set_base (c (base w)) w
  end.

(** What the scheduler may pick next. *)
Inductive action :=
| Start
| Step                       (* the worker thread takes its next step *)
| Join
| Add (q : handle)
| Remove (q : handle)
| Count
| Clock (d : string).        (* the wall clock reaches another day *)

Definition perform (w : NewsProducer) (a : action) : NewsProducer :=
  match a with
  | Start => start w
  | Step => run_step w
  | Join => join w
  | Add q => other_thread (fun s => final (add_queue q s)) w
  | Remove q => other_thread (fun s => final (remove_queue q s)) w
  | Count => other_thread (fun s => final (queue_count s)) w
  | Clock d => set_today d w
  end.

(** An interleaving of the worker thread with the other threads. *)
Definition interleave (sched : list action) (w : NewsProducer) : NewsProducer :=
  fold_left perform sched w.

End NewsProducer.

Definition is_step (a : action) : bool :=
  match a with Step => true | _ => false end.

Definition is_join (a : action) : bool :=
  match a with Join => true | _ => false end.

(** The number of steps the schedule gives to the worker thread. *)
Definition steps (sched : list action) : nat := length (List.filter is_step sched).

(** The thread of [run] is over. *)
Definition terminated (w : NewsProducer) : bool :=
  match at_pos w with
  | Finished | Crashed _ => true
  | _ => false
  end.

(** ** Invariants of the worker loop *)

Definition nproduced (l : list event) : nat := length (List.filter is_produce l).

Definition npoisoned (l : list event) : nat := length (List.filter is_poison l).

(** The worker has not been asked to stop and has found a subscriber at
    every tick: after [k] steps it stands where the loop puts it, with one
    produce call per count and no poison before the end. *)
Definition on_schedule (k : nat) (w : NewsProducer) : Prop :=
  let c := news_count w in
  let l := history (base w) in
  stop_request w = false /\
  match at_pos w with
  | NotStarted => False
  | LoopTest =>
      0 <= c <= limit /\ Z.of_nat k = 4 * c /\
      Z.of_nat (nproduced l) = c /\ npoisoned l = 0%nat
  | CountTest =>
      0 <= c < limit /\ Z.of_nat k = 4 * c + 1 /\
      Z.of_nat (nproduced l) = c /\ npoisoned l = 0%nat
  | Producing =>
      1 <= c <= limit /\ Z.of_nat k = 4 * c - 2 /\
      Z.of_nat (nproduced l) = c - 1 /\ npoisoned l = 0%nat
  | Sleeping =>
      1 <= c <= limit /\ Z.of_nat k = 4 * c - 1 /\
      Z.of_nat (nproduced l) = c /\ npoisoned l = 0%nat
  | Poisoning =>
      c = limit /\ Z.of_nat k = 4 * limit + 1 /\
      Z.of_nat (nproduced l) = c /\ npoisoned l = 0%nat
  | Finished =>
      c = limit /\ 4 * limit + 2 <= Z.of_nat k /\
      Z.of_nat (nproduced l) = c /\ npoisoned l = 1%nat /\
      exists l1 j qs l2, l = l1 ++ EvPoison j qs :: l2 /\ nproduced l2 = 0%nat
  | Crashed _ | Waiting => True
  end.

(** No tick of the worker found the registry empty. *)
Definition every_tick_found_a_subscriber (l : list event) : bool :=
  forallb (fun e => match e with EvTick n => (0 <? n)%nat | _ => true end) l.

(** No thread called [join]. *)
Definition never_asked_to_stop (sched : list action) : bool :=
  forallb (fun a => negb (is_join a)) sched.

(** The worker is inside the while loop of [run]. *)
Definition running (w : NewsProducer) : bool :=
  match at_pos w with
  | LoopTest | CountTest | Producing | Sleeping => true
  | _ => false
  end.

(** Once the stop request is set: the number of steps that the thread can
    still take from a position. *)
Definition remaining (p : position) : nat :=
  match p with
  | NotStarted => 6
  | CountTest => 5
  | Producing => 4
  | Sleeping => 3
  | LoopTest => 2
  | Poisoning => 1
  | Finished | Crashed _ | Waiting => 0
  end.

(** The worker [w], reached by [sched] from the worker [w0] that was asked
    to stop inside the loop: it produces at most the item of the tick in
    flight and runs out of steps. *)
Definition stopping (w0 : NewsProducer) (sched : list action) (w : NewsProducer) : Prop :=
  stop_request w = true /\
  news_count w0 <= news_count w <= news_count w0 + 1 /\
  (at_pos w = CountTest -> news_count w = news_count w0) /\
  (steps sched + remaining (at_pos w) <= 5 \/ remaining (at_pos w) = 0)%nat.

(** The worker [w], reached by [sched] from the worker [w0] that was asked
    to stop between two ticks: the count stays, and the only broadcast left
    is the poison, to the queues registered when it is made. *)
Definition winding_down (block : bool) (timeout : option Z)
    (w0 : NewsProducer) (sched : list action) (w : NewsProducer) : Prop :=
  stop_request w = true /\
  news_count w = news_count w0 /\
  (exists l, history (base w) = history (base w0) ++ l /\ nproduced l = 0%nat) /\
  match at_pos w with
  | Sleeping => steps sched = 0%nat /\ history (base w) = history (base w0)
  | LoopTest => (steps sched <= 1)%nat /\ history (base w) = history (base w0)
  | Poisoning =>
      (steps sched <= 2)%nat /\
      history (base w) = history (base w0) ++ [EvLog "info" "Sending poison pill!"]
  | Finished =>
      exists sched1 sched2,
        sched = sched1 ++ Step :: sched2 /\
        let before := base (interleave block timeout sched1 (join w0)) in
        history (base w) =
          history (base w0) ++
          [EvLog "info" "Sending poison pill!";
           EvPoison (ncalls (history (base w0))) (queues before)] ++
          delivered_to (ncalls (history (base w0))) PyNone (queues before)
  | Crashed _ | Waiting => True
  | NotStarted | CountTest | Producing => False
  end.

(** ** Concrete producers, used to run the definitions *)

Definition unbounded : Queue := {| maxsize := 0; items := [] |}.

(** Queue(maxsize=1) that already holds an item. *)
Definition full1 : Queue := {| maxsize := 1; items := [PyInt 0] |}.

(** Queue(maxsize=2), empty. *)
Definition bounded2 : Queue := {| maxsize := 2; items := [] |}.

(** Object 0 is a full queue, object 1 an unbounded one. *)
Definition heap_full_then_free : gmap handle Queue :=
  <[1%nat := unbounded]> (<[0%nat := full1]> ∅).

(** Both registered, the full queue first. *)
Definition full_then_free : state :=
  set_queues [0%nat; 1%nat] (init heap_full_then_free).

Definition heap_two_free : gmap handle Queue :=
  <[1%nat := unbounded]> (<[0%nat := unbounded]> ∅).

Definition two_free : state :=
  set_queues [0%nat; 1%nat] (init heap_two_free).

(** A started worker with one unbounded subscriber. *)
Definition one_subscriber : NewsProducer :=
  interleave true None [Add 0%nat; Start]
    (new_NewsProducer (<[0%nat := unbounded]> ∅) "2024/05/17").

(** A started worker over two unbounded queues, the first one registered. *)
Definition first_of_two : NewsProducer :=
  interleave true None [Add 0%nat; Start]
    (new_NewsProducer heap_two_free "2024/05/17").

(** A worker whose only subscriber is a Queue(maxsize=2) that nobody reads. *)
Definition slow_subscriber : NewsProducer :=
  interleave false None [Add 0%nat; Start]
    (new_NewsProducer (<[0%nat := bounded2]> ∅) "2024/05/17").

(** A worker whose only subscriber is full from the start. *)
Definition stuck_subscriber : NewsProducer :=
  interleave true None [Add 0%nat; Start]
    (new_NewsProducer (<[0%nat := full1]> ∅) "2024/05/17").

(** ** Further readings of the state *)

(** How many times the queue [q] is registered. *)
Definition registrations (q : handle) (qs : list handle) : nat :=
  length (List.filter (Nat.eqb q) qs).

(** The queue [Q] with [n] more copies of [x] at its end. *)
Definition with_copies (n : nat) (x : item) (Q : Queue) : Queue :=
  {| maxsize := maxsize Q; items := items Q ++ replicate n x |}.

(** Every registered handle is a Queue without a bound (maxsize <= 0). *)
Definition unbounded_subscribers (s : state) : Prop :=
  forall q, q ∈ queues s -> exists Q, heap s !! q = Some Q /\ maxsize Q <= 0.

(** Every object of the heap is a Queue without a bound. *)
Definition all_unbounded (h : gmap handle Queue) : Prop :=
  forall q Q, h !! q = Some Q -> maxsize Q <= 0.

(** The other threads register queue objects of the heap [h] only. *)
Definition adds_known (h : gmap handle Queue) (sched : list action) : bool :=
  forallb (fun a => match a with
                    | Add q => bool_decide (is_Some (h !! q))
                    | _ => true
                    end) sched.

(** No other thread registers a queue. *)
Definition never_adds (sched : list action) : bool :=
  forallb (fun a => match a with Add _ => false | _ => true end) sched.

(** The schedule leaves the registry and the stop request alone: the worker
    steps, the clock moves, other threads read the count. *)
Definition undisturbed (sched : list action) : bool :=
  forallb (fun a => match a with
                    | Step | Count | Clock _ => true
                    | _ => false
                    end) sched.

(** The items of the produce calls, oldest first. *)
Definition produce_items (l : list event) : list item :=
  omap (fun e => match e with
                 | EvProduce _ x _ => Some x
                 | _ => None
                 end) l.

(** The item is the news story number [n], of whatever date. *)
Definition is_story (n : Z) (x : item) : Prop :=
  exists d, x = PyNews (generate_news d n).

(** The items are the stories 1, 2, ... in this order. *)
Definition stories_from_one (l : list item) : Prop :=
  forall i x, l !! i = Some x -> is_story (Z.of_nat i + 1) x.

(** What holds of the worker in every interleaving: the count stays within
    the limit, the produce calls carry the stories 1, 2, ... up to the count
    (the story of the count is still to come while the worker stands
    between the increment and the call), and a poison broadcast, if there is
    one, is the last broadcast. *)
Definition worker_safe (w : NewsProducer) : Prop :=
  let c := news_count w in
  let l := history (base w) in
  0 <= c <= limit /\
  stories_from_one (produce_items l) /\
  Z.of_nat (length (produce_items l))
    = match at_pos w with Producing => c - 1 | _ => c end /\
  match at_pos w with
  | CountTest => c < limit /\ npoisoned l = 0%nat
  | NotStarted | LoopTest | Producing | Sleeping | Poisoning => npoisoned l = 0%nat
  | Finished =>
      exists l1 j qs l2,
        l = l1 ++ EvPoison j qs :: l2 /\ npoisoned l1 = 0%nat /\ ncalls l2 = 0%nat
  | Crashed _ | Waiting =>
      npoisoned l = 0%nat \/
      exists l1 j qs l2,
        l = l1 ++ EvPoison j qs :: l2 /\ npoisoned l1 = 0%nat /\ ncalls l2 = 0%nat
  end.

(** The worker after [k] steps, when the unbounded queue [q], which held
    [Q] at the start, is the one subscriber all along and nobody asks the
    worker to stop: the queue holds the stories produced so far, and the
    poison item after them once the worker has finished. *)
Definition serving (q : handle) (Q : Queue) (k : nat) (w : NewsProducer) : Prop :=
  let c := news_count w in
  queues (base w) = [q] /\
  stop_request w = false /\
  exists L,
    stories_from_one L /\
    heap (base w) !! q
      = Some {| maxsize := maxsize Q;
                items := items Q ++ L ++
                         match at_pos w with Finished => [PyNone] | _ => [] end |} /\
    match at_pos w with
    | LoopTest => 0 <= c <= limit /\ Z.of_nat k = 4 * c /\ Z.of_nat (length L) = c
    | CountTest => 0 <= c < limit /\ Z.of_nat k = 4 * c + 1 /\ Z.of_nat (length L) = c
    | Producing => 1 <= c <= limit /\ Z.of_nat k = 4 * c - 2 /\ Z.of_nat (length L) = c - 1
    | Sleeping => 1 <= c <= limit /\ Z.of_nat k = 4 * c - 1 /\ Z.of_nat (length L) = c
    | Poisoning => c = limit /\ Z.of_nat k = 4 * limit + 1 /\ Z.of_nat (length L) = c
    | Finished => c = limit /\ 4 * limit + 2 <= Z.of_nat k /\ Z.of_nat (length L) = c
    | NotStarted | Crashed _ | Waiting => False
    end.

(** The worker over queue objects that are all without a bound, of which
    the heap [h] names the ones that may be registered: no insertion can
    fail. *)
Definition cannot_fail (h : gmap handle Queue) (w : NewsProducer) : Prop :=
  all_unbounded (heap (base w)) /\
  (forall q, is_Some (h !! q) -> is_Some (heap (base w) !! q)) /\
  (forall q, q ∈ queues (base w) -> is_Some (heap (base w) !! q)) /\
  at_pos w <> Waiting /\ (forall e, at_pos w <> Crashed e).

(** The messages given to [_log], oldest first. *)
Definition log_lines (l : list event) : list string :=
  omap (fun e => match e with
                 | EvLog _ msg => Some msg
                 | _ => None
                 end) l.

(** The lines "Producing news: 1", ..., "Producing news: n". *)
Definition producing_lines (n : nat) : list string :=
  map (fun i => "Producing news: " +:+ fmt_d (Z.of_nat i)) (seq 1 n).

(** The worker has left the while loop. *)
Definition left_loop (w : NewsProducer) (b : bool) : Prop :=
  match at_pos w with
  | NotStarted | LoopTest | CountTest | Producing | Sleeping => b = false
  | Poisoning | Finished => b = true
  | Crashed _ | Waiting => True
  end.

(** * Properties *)

(** ** list.remove *)

Lemma list_remove_None (x : handle) (l : list handle) :
  list_remove x l = None <-> x ∉ l.
Proof.
  induction l as [|y l IH]; simpl.
  - split; [intros _; apply not_elem_of_nil | done].
  - rewrite not_elem_of_cons. destruct (decide (y = x)) as [->|Hne].
    + split; [done | intros [? _]; done].
    + destruct (list_remove x l) eqn:E.
      * split; [done | intros [_ Hx]; apply IH in Hx; done].
      * split; [intros _; split; [congruence | by apply IH] | done].
Qed.

Lemma list_remove_Some_length (x : handle) (l r : list handle) :
  list_remove x l = Some r -> length l = S (length r).
Proof.
  revert r. induction l as [|y l IH]; intros r; simpl; [done|].
  destruct (decide (y = x)); [by intros [= ->]|].
  destruct (list_remove x l) eqn:E; [|done].
  intros [= <-]. simpl. f_equal. by apply IH.
Qed.

Lemma list_remove_Some_elem (x y : handle) (l r : list handle) :
  list_remove x l = Some r -> y ∈ r -> y ∈ l.
Proof.
  revert r. induction l as [|z l IH]; intros r; simpl; [done|].
  destruct (decide (z = x)); [intros [= ->] ?; apply elem_of_cons; by right|].
  destruct (list_remove x l) eqn:E; [|done].
  intros [= <-]. rewrite !elem_of_cons. intros [->|?]; [by left|right; eauto].
Qed.

(** ** The history is only ever extended *)

Lemma during_app (s s' : state) (l : list event) :
  history s' = history s ++ l -> during s s' = l.
Proof. unfold during. intros ->. by rewrite drop_app_length. Qed.

Lemma put_calls_app (l1 l2 : list event) :
  put_calls (l1 ++ l2) = put_calls l1 ++ put_calls l2.
Proof. apply omap_app. Qed.

Lemma deliveries_app (l1 l2 : list event) :
  deliveries (l1 ++ l2) = deliveries l1 ++ deliveries l2.
Proof. apply omap_app. Qed.

Lemma received_app (q : handle) (l1 l2 : list event) :
  received q (l1 ++ l2) = received q l1 ++ received q l2.
Proof. apply omap_app. Qed.

Lemma ncalls_app (l1 l2 : list event) :
  ncalls (l1 ++ l2) = (ncalls l1 + ncalls l2)%nat.
Proof. unfold ncalls. by rewrite List.filter_app, length_app. Qed.

Lemma put_calls_delivered_to k x qs :
  put_calls (delivered_to k x qs) = map (fun q => (q, x)) qs.
Proof. induction qs as [|q qs IH]; simpl; [done | by rewrite IH]. Qed.

Lemma deliveries_delivered_to k x qs :
  deliveries (delivered_to k x qs) = map (fun q => (q, x)) qs.
Proof. induction qs as [|q qs IH]; simpl; [done | by rewrite IH]. Qed.

Lemma filter_delivered_to (f : event -> bool) k x qs :
  (forall q, f (EvPut k q x Delivered) = false) ->
  List.filter f (delivered_to k x qs) = [].
Proof.
  intros Hf. induction qs as [|q qs IH]; simpl; [done|].
  rewrite Hf. exact IH.
Qed.

Section BroadcastFacts.

Variable _put : item -> handle -> gmap handle Queue -> put_result (gmap handle Queue).

(** A broadcast that returns has called [_put] once on every queue of the
    list, in order, and every call returned. *)
Lemma broadcast_Return k x qs s s' :
  broadcast _put k x qs s = Return tt s' ->
  queues s' = queues s /\ history s' = history s ++ delivered_to k x qs.
Proof.
  revert s. induction qs as [|q qs IH]; intros s; simpl.
  - intros [= <-]. by rewrite app_nil_r.
  - destruct (_put x q (heap s)) as [h'| |]; [|done..].
    intros H. apply IH in H as [Hq Hh]. simpl in *. split; [done|].
    rewrite Hh. by rewrite <- app_assoc.
Qed.

(** A broadcast that raises stopped at the first insertion that raised:
    the queues before it were served, the others were not called. *)
Lemma broadcast_Raise k x qs s e s' :
  broadcast _put k x qs s = Raise e s' ->
  exists pre q post s1,
    qs = pre ++ q :: post /\
    broadcast _put k x pre s = Return tt s1 /\
    _put x q (heap s1) = PutRaise e /\
    s' = record (EvPut k q x (Failed e)) s1.
Proof.
  revert s. induction qs as [|q qs IH]; intros s; simpl; [done|].
  destruct (_put x q (heap s)) as [h'|e'|] eqn:E.
  - intros H. apply IH in H as (pre & q' & post & s1 & -> & Hpre & Hq & ->).
    exists (q :: pre), q', post, s1. simpl. rewrite E. done.
  - intros [= <- <-]. exists [], q, qs, s. done.
  - done.
Qed.

(** A broadcast that never returns waits in one insertion. *)
Lemma broadcast_Blocks k x qs s s' :
  broadcast _put k x qs s = Blocks s' ->
  exists pre q post s1,
    qs = pre ++ q :: post /\
    broadcast _put k x pre s = Return tt s1 /\
    _put x q (heap s1) = PutWait /\
    s' = record (EvPut k q x Stuck) s1.
Proof.
  revert s. induction qs as [|q qs IH]; intros s; simpl; [done|].
  destruct (_put x q (heap s)) as [h'|e'|] eqn:E.
  - intros H. apply IH in H as (pre & q' & post & s1 & -> & Hpre & Hq & ->).
    exists (q :: pre), q', post, s1. simpl. rewrite E. done.
  - done.
  - intros [= <-]. exists [], q, qs, s. done.
Qed.

(** Whatever its end, a broadcast has called [_put] on a prefix of the
    list, once per element, with the same item. *)
Lemma broadcast_put_calls k x qs s :
  exists n l,
    (n <= length qs)%nat /\
    history (final (broadcast _put k x qs s)) = history s ++ l /\
    put_calls l = map (fun q => (q, x)) (take n qs).
Proof.
  revert s. induction qs as [|q qs IH]; intros s; simpl.
  - exists 0%nat, []. by rewrite app_nil_r.
  - destruct (_put x q (heap s)) as [h'|e|]; simpl.
    + destruct (IH (record (EvPut k q x Delivered) (set_heap h' s)))
        as (n & l & Hn & Hh & Hl).
      exists (S n), (EvPut k q x Delivered :: l). simpl in *.
      rewrite Hh, <- app_assoc, Hl. split; [lia | done].
    + exists 1%nat, [EvPut k q x (Failed e)]. simpl.
      split; [lia|]. split; [done|]. by destruct qs.
    + exists 1%nat, [EvPut k q x Stuck]. simpl.
      split; [lia|]. split; [done|]. by destruct qs.
Qed.

(** Whatever its end, a broadcast has delivered the item to a prefix of the
    list, once per element. *)
Lemma broadcast_deliveries k x qs s :
  exists n l,
    (n <= length qs)%nat /\
    history (final (broadcast _put k x qs s)) = history s ++ l /\
    deliveries l = map (fun q => (q, x)) (take n qs).
Proof.
  revert s. induction qs as [|q qs IH]; intros s; simpl.
  - exists 0%nat, []. by rewrite app_nil_r.
  - destruct (_put x q (heap s)) as [h'|e|]; simpl.
    + destruct (IH (record (EvPut k q x Delivered) (set_heap h' s)))
        as (n & l & Hn & Hh & Hl).
      exists (S n), (EvPut k q x Delivered :: l). simpl in *.
      rewrite Hh, <- app_assoc, Hl. split; [lia | done].
    + exists 0%nat, [EvPut k q x (Failed e)]. simpl. split; [lia | done].
    + exists 0%nat, [EvPut k q x Stuck]. simpl. split; [lia | done].
Qed.

Lemma broadcast_app k x qs1 qs2 s s1 :
  broadcast _put k x qs1 s = Return tt s1 ->
  broadcast _put k x (qs1 ++ qs2) s = broadcast _put k x qs2 s1.
Proof.
  revert s. induction qs1 as [|q qs1 IH]; intros s; simpl.
  - by intros [= <-].
  - destruct (_put x q (heap s)) as [h'|e|]; [|done..]. apply IH.
Qed.

End BroadcastFacts.

(** ** remove_queue *)

(** C3. Removing a queue that is not registered raises the "not found"
    error of [list.remove] (ValueError) to the caller at once, and the
    state of the registry after the failed call is the state before it. *)
Theorem remove_queue_not_registered (q : handle) (s : state) :
  q ∉ queues s ->
  remove_queue q s = Raise ValueError s.
Proof.
  intros Hq. unfold remove_queue.
  apply list_remove_None in Hq. by rewrite Hq.
Qed.

Lemma remove_queue_not_registered_witness :
  (2%nat ∉ queues two_free) /\ remove_queue 2%nat two_free = Raise ValueError two_free.
Proof.
  assert (H : 2%nat ∉ queues two_free).
  { simpl. rewrite !not_elem_of_cons. repeat split; try lia. apply not_elem_of_nil. }
  split; [exact H | exact (remove_queue_not_registered 2%nat two_free H)].
Defined.

(** ** produce *)

Section ProduceFacts.

Variable _put : item -> handle -> gmap handle Queue -> put_result (gmap handle Queue).

Lemma produce_Return x s s' :
  produce _put x s = Return tt s' ->
  queues s' = queues s /\
  history s' = history s ++
    EvProduce (ncalls (history s)) x (queues s) ::
    delivered_to (ncalls (history s)) x (queues s).
Proof.
  unfold produce. intros H. apply broadcast_Return in H as [Hq Hh].
  simpl in *. split; [done|]. rewrite Hh. by rewrite <- app_assoc.
Qed.

Lemma poison_Return s s' :
  poison _put s = Return tt s' ->
  queues s' = queues s /\
  history s' = history s ++
    EvPoison (ncalls (history s)) (queues s) ::
    delivered_to (ncalls (history s)) PyNone (queues s).
Proof.
  unfold poison. intros H. apply broadcast_Return in H as [Hq Hh].
  simpl in *. split; [done|]. rewrite Hh. by rewrite <- app_assoc.
Qed.

Lemma produce_Raise x s e s' :
  produce _put x s = Raise e s' ->
  exists pre q post,
    queues s = pre ++ q :: post /\
    queues s' = queues s /\
    history s' = history s ++
      EvProduce (ncalls (history s)) x (queues s) ::
      delivered_to (ncalls (history s)) x pre ++
      [EvPut (ncalls (history s)) q x (Failed e)].
Proof.
  unfold produce. intros H.
  apply broadcast_Raise in H as (pre & q & post & s1 & Hqs & Hpre & _ & ->).
  apply broadcast_Return in Hpre as [Hq Hh]. simpl in *.
  exists pre, q, post. split; [done|]. split; [done|].
  rewrite Hh. rewrite <- !app_assoc. done.
Qed.

Lemma poison_Raise s e s' :
  poison _put s = Raise e s' ->
  exists pre q post,
    queues s = pre ++ q :: post /\
    queues s' = queues s /\
    history s' = history s ++
      EvPoison (ncalls (history s)) (queues s) ::
      delivered_to (ncalls (history s)) PyNone pre ++
      [EvPut (ncalls (history s)) q PyNone (Failed e)].
Proof.
  unfold poison. intros H.
  apply broadcast_Raise in H as (pre & q & post & s1 & Hqs & Hpre & _ & ->).
  apply broadcast_Return in Hpre as [Hq Hh]. simpl in *.
  exists pre, q, post. split; [done|]. split; [done|].
  rewrite Hh. rewrite <- !app_assoc. done.
Qed.

Lemma poison_Blocks s s' :
  poison _put s = Blocks s' ->
  exists pre q post,
    queues s = pre ++ q :: post /\
    queues s' = queues s /\
    history s' = history s ++
      EvPoison (ncalls (history s)) (queues s) ::
      delivered_to (ncalls (history s)) PyNone pre ++
      [EvPut (ncalls (history s)) q PyNone Stuck].
Proof.
  unfold poison. intros H.
  apply broadcast_Blocks in H as (pre & q & post & s1 & Hqs & Hpre & _ & ->).
  apply broadcast_Return in Hpre as [Hq Hh]. simpl in *.
  exists pre, q, post. split; [done|]. split; [done|].
  rewrite Hh. rewrite <- !app_assoc. done.
Qed.

(** C1 (amended). A [produce(item)] call made while N queues are registered
    makes at most N insertion attempts: one per registered queue, in
    registration order and as far as the first insertion that does not
    return, each with the same item.  When the call returns it has made
    exactly N attempts, one per registered queue. *)
Theorem produce_attempts (x : item) (s : state) :
  (exists n,
     (n <= length (queues s))%nat /\
     put_calls (during s (final (produce _put x s)))
     = map (fun q => (q, x)) (take n (queues s))) /\
  (forall s',
     produce _put x s = Return tt s' ->
     put_calls (during s s') = map (fun q => (q, x)) (queues s) /\
     length (put_calls (during s s')) = length (queues s)).
Proof.
  split.
  - unfold produce.
    destruct (broadcast_put_calls _put (ncalls (history s)) x (queues s)
                (record (EvProduce (ncalls (history s)) x (queues s)) s))
      as (n & l & Hn & Hh & Hl).
    exists n. split; [done|]. simpl in Hh. rewrite <- app_assoc in Hh.
    rewrite (during_app _ _ _ Hh). simpl. exact Hl.
  - intros s' H. apply produce_Return in H as [_ Hh].
    rewrite (during_app _ _ _ Hh). simpl.
    rewrite put_calls_delivered_to. split; [done|]. by rewrite length_map.
Qed.

End ProduceFacts.

Lemma produce_attempts_witness :
  let s' := final (produce (SimpleQueueProducer_put true None) (PyInt 7) two_free) in
  produce (SimpleQueueProducer_put true None) (PyInt 7) two_free = Return tt s' /\
  put_calls (during two_free s') = [(0%nat, PyInt 7); (1%nat, PyInt 7)] /\
  length (put_calls (during two_free s')) = 2%nat.
Proof.
  intros s'.
  assert (H : produce (SimpleQueueProducer_put true None) (PyInt 7) two_free = Return tt s')
    by (vm_compute; reflexivity).
  split; [exact H|].
  exact (proj2 (produce_attempts (SimpleQueueProducer_put true None) (PyInt 7) two_free) s' H).
Defined.

(** The attempts can be fewer than the registered queues: with two queues
    registered, a full one first, and a producer that does not block,
    [produce] makes one insertion attempt and not two. *)
Lemma produce_cut_short :
  length (queues full_then_free) = 2%nat /\
  put_calls (during full_then_free
    (final (produce (SimpleQueueProducer_put false None) (PyInt 7) full_then_free)))
  = [(0%nat, PyInt 7)].
Proof. split; vm_compute; reflexivity. Qed.

(** ** Failed insertions *)

Lemma Crashed_stays block timeout (sched : list action) (w : NewsProducer) (e : exn) :
  at_pos w = Crashed e ->
  at_pos (interleave block timeout sched w) = Crashed e /\
  history (base (interleave block timeout sched w)) = history (base w).
Proof.
  revert w. induction sched as [|a sched IH]; intros w Hw; simpl; [done|].
  assert (at_pos (perform block timeout w a) = Crashed e /\
          history (base (perform block timeout w a)) = history (base w)) as [H1 H2].
  { destruct a; simpl; unfold start, run_step, join, other_thread;
      rewrite ?Hw; simpl; try done.
    unfold remove_queue. by destruct (list_remove q (queues (base w))). }
  destruct (IH _ H1) as [H3 H4]. split; [done | congruence].
Qed.

(** C2 (amended). An insertion that raises during a broadcast is not
    swallowed.  When the insertions into the queues [pre] return and the
    insertion into the next queue [q] raises [e], [produce] raises [e] to its
    caller: the queues of [pre] have been served, the failed insertion is
    made once and not retried, and the queues after [q] are not called.  In
    the worker the exception leaves [run]: the thread is dead from then on
    and adds nothing to the history, so no poison is sent. *)
Theorem insertion_failure_propagates (block : bool) (timeout : option Z)
    (x : item) (s s1 : state) (pre post : list handle) (q : handle) (e : exn) :
  let put := SimpleQueueProducer_put block timeout in
  let k := ncalls (history s) in
  queues s = pre ++ q :: post ->
  broadcast put k x pre (record (EvProduce k x (queues s)) s) = Return tt s1 ->
  put x q (heap s1) = PutRaise e ->
  let s' := record (EvPut k q x (Failed e)) s1 in
  produce put x s = Raise e s' /\
  during s s' = EvProduce k x (queues s) :: delivered_to k x pre ++ [EvPut k q x (Failed e)] /\
  put_calls (during s s') = map (fun q => (q, x)) (pre ++ [q]) /\
  deliveries (during s s') = map (fun q => (q, x)) pre /\
  (forall w sched,
      at_pos w = Producing -> base w = s ->
      PyNews (generate_news (today w) (news_count w)) = x ->
      at_pos (interleave block timeout (Step :: sched) w) = Crashed e /\
      history (base (interleave block timeout (Step :: sched) w)) = history s').
Proof.
  intros put k Hqs Hpre Hq s'.
  assert (H : produce put x s = Raise e s').
  { unfold produce. fold k. rewrite Hqs at 1.
    rewrite (broadcast_app put k x pre (q :: post) _ s1 Hpre).
    simpl. fold put. by rewrite Hq. }
  assert (Hd : during s s'
               = EvProduce k x (queues s) :: delivered_to k x pre ++ [EvPut k q x (Failed e)]).
  { apply during_app. apply broadcast_Return in Hpre as [_ Hh]. simpl in *.
    rewrite Hh, <- !app_assoc. done. }
  split; [done|]. split; [done|]. rewrite Hd. simpl. split; [|split].
  - by rewrite put_calls_app, put_calls_delivered_to, map_app.
  - rewrite deliveries_app, deliveries_delivered_to. simpl. by rewrite app_nil_r.
  - intros w sched Hw Hs Hx. simpl.
    assert (Hstep : run_step block timeout w = goto (Crashed e) (set_base s' w)).
    { unfold run_step. rewrite Hw, Hx, Hs. fold put. rewrite H. done. }
    rewrite Hstep.
    destruct (Crashed_stays block timeout sched (goto (Crashed e) (set_base s' w)) e)
      as [H1 H2]; done.
Qed.

Lemma insertion_failure_propagates_witness :
  let put := SimpleQueueProducer_put false None in
  let s := full_then_free in
  let s1 := record (EvProduce 0 (PyInt 7) [0%nat; 1%nat]) s in
  let s' := record (EvPut 0 0%nat (PyInt 7) (Failed Full)) s1 in
  (queues s = [] ++ 0%nat :: [1%nat] /\
   broadcast put 0 (PyInt 7) [] s1 = Return tt s1 /\
   put (PyInt 7) 0%nat (heap s1) = PutRaise Full) /\
  produce put (PyInt 7) s = Raise Full s' /\
  put_calls (during s s') = [(0%nat, PyInt 7)] /\
  deliveries (during s s') = [].
Proof.
  intros put s s1 s'.
  assert (H1 : queues s = [] ++ 0%nat :: [1%nat]) by reflexivity.
  assert (H2 : broadcast put (ncalls (history s)) (PyInt 7) []
                 (record (EvProduce (ncalls (history s)) (PyInt 7) (queues s)) s)
               = Return tt s1) by reflexivity.
  assert (H3 : put (PyInt 7) 0%nat (heap s1) = PutRaise Full) by (vm_compute; reflexivity).
  destruct (insertion_failure_propagates false None (PyInt 7) s s1 [] [1%nat] 0%nat Full
              H1 H2 H3) as (Ha & _ & Hb & Hc & _).
  split; [exact (conj H1 (conj H2 H3))|].
  split; [exact Ha|]. split; [exact Hb | exact Hc].
Defined.

(** The failure of the first subscriber is not swallowed: whether the
    producer does not block or blocks with a timeout of 2, [produce] raises
    queue.Full, and the healthy subscriber registered after the full one
    receives nothing from that call. *)
Lemma failure_not_swallowed :
  exists s',
    produce (SimpleQueueProducer_put false None) (PyInt 7) full_then_free = Raise Full s' /\
    produce (SimpleQueueProducer_put true (Some 2)) (PyInt 7) full_then_free = Raise Full s' /\
    heap s' !! 1%nat = Some unbounded /\
    received 1%nat (history s') = [].
Proof. eexists. repeat split; vm_compute; reflexivity. Qed.

(** The same in the worker: a subscriber that does not read fills its
    Queue(maxsize=2) after two items, the third [produce] raises queue.Full
    and ends the thread; the poison is never sent. *)
Lemma worker_dies_on_full_queue :
  let w := interleave false None (repeat Step 11) slow_subscriber in
  at_pos w = Crashed Full /\
  news_count w = 3 /\
  List.filter is_poison (history (base w)) = [].
Proof. repeat split; vm_compute; reflexivity. Qed.

(** ** Registration calls *)

Section CallFacts.

Variable _put : item -> handle -> gmap handle Queue -> put_result (gmap handle Queue).

Lemma exec_cons_Returned c cs s v s' :
  do_call _put c s = (Returned v, s') ->
  exec _put (c :: cs) s = (Returned v :: fst (exec _put cs s'), snd (exec _put cs s')).
Proof. intros H. simpl. rewrite H. by destruct (exec _put cs s'). Qed.

Lemma exec_cons_Raised c cs s e s' :
  do_call _put c s = (Raised e, s') ->
  exec _put (c :: cs) s = (Raised e :: fst (exec _put cs s'), snd (exec _put cs s')).
Proof. intros H. simpl. rewrite H. by destruct (exec _put cs s'). Qed.

(** Registration calls change the list of queues only, and the list grows
    by the adds and shrinks by the removes that returned. *)
Lemma exec_registration cs s :
  forallb registration_only cs = true ->
  (length (queues (snd (exec _put cs s))) + completed_removes cs (fst (exec _put cs s))
   = length (queues s) + adds cs)%nat /\
  heap (snd (exec _put cs s)) = heap s /\
  history (snd (exec _put cs s)) = history s.
Proof.
  revert s. induction cs as [|c cs IH]; intros s Hcs.
  - simpl. unfold completed_removes, adds. simpl. repeat split; lia.
  - simpl in Hcs. apply andb_true_iff in Hcs as [Hc Hcs].
    destruct c as [q|q| | |]; try discriminate Hc.
    + rewrite (exec_cons_Returned (AddQueue q) cs s None (set_queues (queues s ++ [q]) s) eq_refl).
      destruct (IH (set_queues (queues s ++ [q]) s) Hcs) as (H1 & H2 & H3).
      simpl in *. unfold completed_removes, adds in *. simpl.
      rewrite length_app in H1. simpl in H1. repeat split; [lia | done | done].
    + unfold completed_removes, adds in *.
      destruct (list_remove q (queues s)) as [l|] eqn:E.
      * assert (Hd : do_call _put (RemoveQueue q) s = (Returned None, set_queues l s)).
        { simpl. unfold remove_queue. by rewrite E. }
        rewrite (exec_cons_Returned _ _ _ _ _ Hd).
        destruct (IH (set_queues l s) Hcs) as (H1 & H2 & H3).
        apply list_remove_Some_length in E.
        simpl in *. repeat split; [lia | done | done].
      * assert (Hd : do_call _put (RemoveQueue q) s = (Raised ValueError, s)).
        { simpl. unfold remove_queue. by rewrite E. }
        rewrite (exec_cons_Raised _ _ _ _ _ Hd).
        destruct (IH s Hcs) as (H1 & H2 & H3).
        simpl in *. repeat split; [lia | done | done].
    + rewrite (exec_cons_Returned QueueCount cs s (Some (length (queues s))) s eq_refl).
      destruct (IH s Hcs) as (H1 & H2 & H3).
      unfold completed_removes, adds in *. simpl in *. repeat split; [lia | done | done].
Qed.

(** C7. After any sequence of add_queue and remove_queue calls on a new
    producer, with no produce or poison among them, [queue_count] returns
    the number of adds minus the number of removes that completed. *)
Theorem queue_count_adds_minus_removes (h : gmap handle Queue) (cs : list call) :
  forallb registration_only cs = true ->
  queue_count (snd (exec _put cs (init h)))
  = Return (adds cs - completed_removes cs (fst (exec _put cs (init h))))%nat
           (snd (exec _put cs (init h))) /\
  (completed_removes cs (fst (exec _put cs (init h))) <= adds cs)%nat.
Proof.
  intros Hcs. destruct (exec_registration cs (init h) Hcs) as (H & _ & _).
  simpl in H. unfold queue_count. split; [f_equal|]; lia.
Qed.

(** C4 (amended). A [poison()] call delivers the poison item, None, at most
    once for each registration, to the queues registered at that call, in
    registration order and as far as the first insertion that does not
    return.  A call that returns has delivered it to every queue registered
    at that call, once for each registration.  Nothing makes the call single
    use: after any further registration calls a second [poison()] that
    returns has delivered the item again to every queue registered at the
    second call. *)
Theorem poison_each_call (s : state) :
  (exists n,
     (n <= length (queues s))%nat /\
     deliveries (during s (final (poison _put s)))
     = map (fun q => (q, PyNone)) (take n (queues s))) /\
  (forall s1 cs s3,
     poison _put s = Return tt s1 ->
     forallb registration_only cs = true ->
     poison _put (snd (exec _put cs s1)) = Return tt s3 ->
     (put_calls (during s s1) = map (fun q => (q, PyNone)) (queues s) /\
      deliveries (during s s1) = map (fun q => (q, PyNone)) (queues s)) /\
     (put_calls (during (snd (exec _put cs s1)) s3)
        = map (fun q => (q, PyNone)) (queues (snd (exec _put cs s1))) /\
      deliveries (during (snd (exec _put cs s1)) s3)
        = map (fun q => (q, PyNone)) (queues (snd (exec _put cs s1))))).
Proof.
  split.
  - unfold poison.
    destruct (broadcast_deliveries _put (ncalls (history s)) get_poison (queues s)
                (record (EvPoison (ncalls (history s)) (queues s)) s))
      as (n & l & Hn & Hh & Hl).
    exists n. split; [done|]. simpl in Hh. rewrite <- app_assoc in Hh.
    rewrite (during_app _ _ _ Hh). simpl. exact Hl.
  - intros s1 cs s3 H1 _ H3.
    apply poison_Return in H1 as [_ Hh1]. apply poison_Return in H3 as [_ Hh3].
    rewrite (during_app _ _ _ Hh1), (during_app _ _ _ Hh3). simpl.
    by rewrite !put_calls_delivered_to, !deliveries_delivered_to.
Qed.

End CallFacts.

Lemma queue_count_adds_minus_removes_witness :
  let cs := [AddQueue 0%nat; AddQueue 1%nat; RemoveQueue 2%nat; RemoveQueue 0%nat; QueueCount] in
  let r := exec (SimpleQueueProducer_put true None) cs (init heap_two_free) in
  forallb registration_only cs = true /\
  fst r = [Returned None; Returned None; Raised ValueError; Returned None; Returned (Some 1%nat)] /\
  queue_count (snd r) = Return (adds cs - completed_removes cs (fst r))%nat (snd r) /\
  (completed_removes cs (fst r) <= adds cs)%nat.
Proof.
  intros cs r.
  assert (H : forallb registration_only cs = true) by reflexivity.
  split; [exact H|]. split; [vm_compute; reflexivity|].
  exact (queue_count_adds_minus_removes (SimpleQueueProducer_put true None) heap_two_free cs H).
Defined.

Lemma poison_each_call_witness :
  let put := SimpleQueueProducer_put true None in
  let s1 := final (poison put two_free) in
  let cs := [RemoveQueue 0%nat] in
  let s3 := final (poison put (snd (exec put cs s1))) in
  (poison put two_free = Return tt s1 /\
   forallb registration_only cs = true /\
   poison put (snd (exec put cs s1)) = Return tt s3) /\
  deliveries (during two_free s1) = [(0%nat, PyNone); (1%nat, PyNone)] /\
  deliveries (during (snd (exec put cs s1)) s3) = [(1%nat, PyNone)] /\
  items <$> heap s3 !! 1%nat = Some [PyNone; PyNone].
Proof.
  intros put s1 cs s3.
  assert (H1 : poison put two_free = Return tt s1) by (vm_compute; reflexivity).
  assert (H2 : forallb registration_only cs = true) by reflexivity.
  assert (H3 : poison put (snd (exec put cs s1)) = Return tt s3) by (vm_compute; reflexivity).
  split; [exact (conj H1 (conj H2 H3))|].
  destruct (proj2 (poison_each_call put two_free) s1 cs s3 H1 H2 H3) as [[_ Ha] [_ Hb]].
  split; [exact Ha|]. split; [exact Hb|]. vm_compute; reflexivity.
Defined.

(** A [poison()] call need not deliver anything: with a full queue
    registered first and a producer that does not block, the call raises
    queue.Full and neither of the two registered queues holds the poison
    item afterwards. *)
Lemma poison_not_delivered :
  exists s',
    poison (SimpleQueueProducer_put false None) full_then_free = Raise Full s' /\
    deliveries (during full_then_free s') = [] /\
    items <$> heap s' !! 0%nat = Some [PyInt 0] /\
    items <$> heap s' !! 1%nat = Some [].
Proof. eexists. repeat split; vm_compute; reflexivity. Qed.

(** ** The numbering of the history *)

Lemma numbered_weaken n c l : numbered n None l -> numbered n c l.
Proof.
  revert n c. induction l as [|e l IH]; intros n c; simpl; [done|].
  destruct e as [k x qs|k qs|k q x r|m|lv msg]; try tauto; try apply IH.
  intros (_ & ? & _). discriminate.
Qed.

Lemma numbered_app n c l1 l2 :
  numbered n c l1 -> numbered (n + ncalls l1) None l2 -> numbered n c (l1 ++ l2).
Proof.
  revert n c. induction l1 as [|e l1 IH]; intros n c; simpl.
  - intros _ H. apply numbered_weaken. by rewrite Nat.add_0_r in H.
  - destruct e as [k x qs|k qs|k q x r|m|lv msg]; unfold ncalls; simpl;
      fold (ncalls l1).
    + intros [-> H1] H2. split; [done|]. apply IH; [done|].
      by replace (S n + ncalls l1)%nat with (n + S (ncalls l1))%nat by lia.
    + intros [-> H1] H2. split; [done|]. apply IH; [done|].
      by replace (S n + ncalls l1)%nat with (n + S (ncalls l1))%nat by lia.
    + intros (? & ? & H1) H2. repeat split; [done..|]. by apply IH.
    + apply IH.
    + apply IH.
Qed.

(** An item received while the count of broadcasts is [n] or more belongs
    to broadcast [n - 1] or a later one. *)
Lemma received_bound q n c l k x :
  numbered n c l -> (k, x) ∈ received q l -> (n <= S k)%nat.
Proof.
  revert n c. induction l as [|e l IH]; intros n c; simpl.
  - intros _ H. by apply elem_of_nil in H.
  - destruct e as [k' x' qs|k' qs|k' q' x' r|m|lv msg]; simpl.
    + intros [-> H1] H. specialize (IH _ _ H1 H). lia.
    + intros [-> H1] H. specialize (IH _ _ H1 H). lia.
    + intros (Hk & _ & H1). destruct r; try (by apply (IH n c)).
      destruct (decide (q' = q)); simpl; [|by apply (IH n c)].
      rewrite elem_of_cons. intros [[= -> ->]|H]; [lia | by eapply (IH n c)].
    + apply IH.
    + apply IH.
Qed.

(** Between two calls no broadcast is in progress, and what is received
    later belongs to a later broadcast. *)
Lemma received_after q n l k x :
  numbered n None l -> (k, x) ∈ received q l -> (n <= k)%nat.
Proof.
  revert n. induction l as [|e l IH]; intros n; simpl.
  - intros _ H. by apply elem_of_nil in H.
  - destruct e as [k' x' qs|k' qs|k' q' x' r|m|lv msg]; simpl.
    + intros [-> H1] H. pose proof (received_bound _ _ _ _ _ _ H1 H). lia.
    + intros [-> H1] H. pose proof (received_bound _ _ _ _ _ _ H1 H). lia.
    + intros (_ & ? & _). discriminate.
    + apply IH.
    + apply IH.
Qed.

Lemma received_sorted q n c l :
  numbered n c l -> StronglySorted le (map fst (received q l)).
Proof.
  revert n c. induction l as [|e l IH]; intros n c; simpl.
  - intros _. constructor.
  - destruct e as [k' x' qs|k' qs|k' q' x' r|m|lv msg]; simpl.
    + intros [_ H1]. by eapply IH.
    + intros [_ H1]. by eapply IH.
    + intros (Hk & _ & H1). destruct r; try (by eapply IH).
      destruct (decide (q' = q)); simpl; [|by eapply IH].
      constructor; [by eapply IH|].
      apply Forall_forall. intros k Hin.
      apply list_elem_of_fmap in Hin as [[k0 x0] [-> Hin]]. simpl.
      pose proof (received_bound _ _ _ _ _ _ H1 Hin). lia.
    + apply IH.
    + apply IH.
Qed.

(** The item received from broadcast [k] is the item of the [k]-th
    broadcast; [pre] holds the items of the broadcasts before the history
    [l]. *)
Lemma received_item q n c l pre k x :
  numbered n c l ->
  length pre = n ->
  (forall y, c = Some y -> last pre = Some y) ->
  (k, x) ∈ received q l ->
  (pre ++ broadcasts l) !! k = Some x.
Proof.
  revert n c pre. induction l as [|e l IH]; intros n c pre; simpl.
  - intros _ _ _ H. by apply elem_of_nil in H.
  - destruct e as [k' x' qs|k' qs|k' q' x' r|m|lv msg]; simpl.
    + intros [-> H1] Hlen Hc H.
      rewrite (cons_middle x'), app_assoc.
      apply (IH (S (length pre)) (Some x')); [by subst| |by intros y [= <-]; apply last_snoc|done].
      rewrite length_app. simpl. lia.
    + intros [-> H1] Hlen Hc H.
      rewrite (cons_middle PyNone), app_assoc.
      apply (IH (S (length pre)) (Some PyNone)); [by subst| |by intros y [= <-]; apply last_snoc|done].
      rewrite length_app. simpl. lia.
    + intros (Hk & Hx & H1) Hlen Hc.
      assert (Hhere : (pre ++ broadcasts l) !! k' = Some x').
      { specialize (Hc _ Hx). rewrite last_lookup in Hc.
        rewrite lookup_app_l by lia. rewrite <- Hc. f_equal. lia. }
      destruct r; try (by apply (IH n c)).
      destruct (decide (q' = q)); simpl; [|by apply (IH n c)].
      rewrite elem_of_cons. intros [[= -> ->]|H]; [done | by apply (IH n c)].
    + apply IH.
    + apply IH.
Qed.

(** ** What a sequence of calls adds to the history *)

Section ExecFacts.

Variable _put : item -> handle -> gmap handle Queue -> put_result (gmap handle Queue).

Lemma broadcast_events k x qs s :
  exists l,
    history (final (broadcast _put k x qs s)) = history s ++ l /\
    queues (final (broadcast _put k x qs s)) = queues s /\
    ncalls l = 0%nat /\
    numbered (S k) (Some x) l /\
    (forall q, q ∉ qs -> received q l = []).
Proof.
  revert s. induction qs as [|q0 qs IH]; intros s; simpl.
  - exists []. rewrite app_nil_r. done.
  - destruct (_put x q0 (heap s)) as [h'|e|]; simpl.
    + destruct (IH (record (EvPut k q0 x Delivered) (set_heap h' s)))
        as (l & Hh & Hq & Hn & Hnum & Hrec).
      exists (EvPut k q0 x Delivered :: l). simpl in *.
      rewrite Hh, <- app_assoc. repeat split; try done.
      intros q Hq0. apply not_elem_of_cons in Hq0 as [Hne Hq0].
      destruct (decide (q0 = q)); [congruence | by apply Hrec].
    + exists [EvPut k q0 x (Failed e)]. done.
    + exists [EvPut k q0 x Stuck]. done.
Qed.

Lemma do_call_events c s :
  exists l,
    history (snd (do_call _put c s)) = history s ++ l /\
    numbered (ncalls (history s)) None l /\
    (forall q, q ∉ queues s -> c <> AddQueue q ->
       (q ∉ queues (snd (do_call _put c s))) /\ received q l = []).
Proof.
  destruct c as [q0|q0| |x|]; simpl.
  - exists []. rewrite app_nil_r. repeat split; try done.
    simpl. rewrite not_elem_of_app, not_elem_of_cons. repeat split; try done.
    + congruence.
    + apply not_elem_of_nil.
  - exists []. rewrite app_nil_r. unfold remove_queue.
    destruct (list_remove q0 (queues s)) as [r|] eqn:E; simpl; repeat split; try done.
    intros Hin. eauto using list_remove_Some_elem.
  - exists []. rewrite app_nil_r. done.
  - unfold produce.
    destruct (broadcast_events (ncalls (history s)) x (queues s)
                (record (EvProduce (ncalls (history s)) x (queues s)) s))
      as (l & Hh & Hq & Hn & Hnum & Hrec).
    destruct (broadcast _put _ _ _ _) as [[] s'|e s'|s']; simpl in *;
      (exists (EvProduce (ncalls (history s)) x (queues s) :: l);
       rewrite Hh, <- app_assoc; repeat split; try done;
       [by rewrite Hq | by apply Hrec]).
  - unfold poison.
    destruct (broadcast_events (ncalls (history s)) get_poison (queues s)
                (record (EvPoison (ncalls (history s)) (queues s)) s))
      as (l & Hh & Hq & Hn & Hnum & Hrec).
    destruct (broadcast _put _ _ _ _) as [[] s'|e s'|s']; simpl in *;
      (exists (EvPoison (ncalls (history s)) (queues s) :: l);
       rewrite Hh, <- app_assoc; repeat split; try done;
       [by rewrite Hq | by apply Hrec]).
Qed.

Lemma exec_cons c s :
  (forall cs, exec _put (c :: cs) s = ([Blocked], snd (do_call _put c s))) \/
  (forall cs, exec _put (c :: cs) s =
    (fst (do_call _put c s) :: fst (exec _put cs (snd (do_call _put c s))),
     snd (exec _put cs (snd (do_call _put c s))))).
Proof.
  simpl. destruct (do_call _put c s) as [[v|e|] s']; simpl.
  - right. intros cs. by destruct (exec _put cs s').
  - right. intros cs. by destruct (exec _put cs s').
  - by left.
Qed.

Lemma exec_events cs s :
  exists l,
    history (snd (exec _put cs s)) = history s ++ l /\
    numbered (ncalls (history s)) None l /\
    (forall q, q ∉ queues s -> AddQueue q ∉ cs ->
       (q ∉ queues (snd (exec _put cs s))) /\ received q l = []).
Proof.
  revert s. induction cs as [|c cs IH]; intros s.
  - exists []. simpl. rewrite app_nil_r. done.
  - destruct (do_call_events c s) as (l1 & Hh1 & Hn1 & Hq1).
    destruct (exec_cons c s) as [E|E]; rewrite E.
    + simpl. exists l1. split; [done|]. split; [done|].
      intros q Hq Hadd. apply not_elem_of_cons in Hadd as [Hne _].
      apply Hq1; congruence.
    + simpl. destruct (IH (snd (do_call _put c s))) as (l2 & Hh2 & Hn2 & Hq2).
      exists (l1 ++ l2). rewrite Hh2, Hh1, <- app_assoc. split; [done|]. split.
      * apply numbered_app; [done|]. by rewrite Hh1, ncalls_app in Hn2.
      * intros q Hq Hadd. apply not_elem_of_cons in Hadd as [Hne Hadd].
        destruct (Hq1 q Hq) as [Hq' Hr1]; [congruence|].
        destruct (Hq2 q Hq' Hadd) as [Hq'' Hr2].
        split; [done|]. by rewrite received_app, Hr1, Hr2.
Qed.

(** A sequence of calls continues the history of each of its prefixes. *)
Lemma exec_app cs1 cs2 s :
  exists l,
    history (snd (exec _put (cs1 ++ cs2) s)) = history (snd (exec _put cs1 s)) ++ l /\
    numbered (ncalls (history (snd (exec _put cs1 s)))) None l.
Proof.
  revert s. induction cs1 as [|c cs1 IH]; intros s.
  - simpl. destruct (exec_events cs2 s) as (l & Hh & Hn & _). by exists l.
  - rewrite <- app_comm_cons.
    destruct (exec_cons c s) as [E|E]; rewrite !E.
    + exists []. by rewrite app_nil_r.
    + simpl. apply IH.
Qed.

End ExecFacts.

(** ** The contents of the queues of a SimpleQueueProducer *)

Section QueueContents.

Variable block : bool.
Variable timeout : option Z.

Lemma Queue_put_PutOk x Q Q' :
  Queue_put x block timeout Q = PutOk Q' -> Q' = Queue_append x Q.
Proof.
  unfold Queue_put.
  destruct (0 <? maxsize Q)%Z; [|congruence].
  destruct (negb block).
  - destruct (maxsize Q <=? Queue_qsize Q)%Z; congruence.
  - destruct timeout as [t|].
    + destruct (t <? 0)%Z; [congruence|].
      destruct (maxsize Q <=? Queue_qsize Q)%Z; congruence.
    + destruct (maxsize Q <=? Queue_qsize Q)%Z; congruence.
Qed.

Lemma SimpleQueueProducer_put_PutOk x q h h' :
  SimpleQueueProducer_put block timeout x q h = PutOk h' ->
  exists Q, h !! q = Some Q /\ h' = <[q := Queue_append x Q]> h.
Proof.
  unfold SimpleQueueProducer_put. destruct (h !! q) as [Q|] eqn:E; [|done].
  destruct (Queue_put x block timeout Q) as [Q'| |] eqn:EQ; [|done..].
  intros [= <-]. apply Queue_put_PutOk in EQ as ->. by exists Q.
Qed.

Lemma after_receiving_nil (o : option Queue) : after_receiving [] <$> o = o.
Proof.
  destruct o as [[m i]|]; [|done]. unfold after_receiving. simpl.
  by rewrite app_nil_r.
Qed.

Lemma after_receiving_app l1 l2 (o : option Queue) :
  after_receiving l2 <$> (after_receiving l1 <$> o) = after_receiving (l1 ++ l2) <$> o.
Proof.
  destruct o as [[m i]|]; [|done]. unfold after_receiving. simpl.
  by rewrite map_app, app_assoc.
Qed.

Lemma broadcast_heap k x qs s l :
  history (final (broadcast (SimpleQueueProducer_put block timeout) k x qs s))
    = history s ++ l ->
  forall q,
    heap (final (broadcast (SimpleQueueProducer_put block timeout) k x qs s)) !! q
    = after_receiving (received q l) <$> heap s !! q.
Proof.
  revert s l. induction qs as [|q0 qs IH]; intros s l; simpl.
  - intros H q. rewrite <- (app_nil_r (history s)) in H at 1.
    apply app_inv_head in H as <-. simpl. by rewrite after_receiving_nil.
  - destruct (SimpleQueueProducer_put block timeout x q0 (heap s)) as [h'|e|] eqn:E; simpl.
    + destruct (broadcast_events (SimpleQueueProducer_put block timeout) k x qs
                  (record (EvPut k q0 x Delivered) (set_heap h' s)))
        as (l1 & Hh & _).
      intros H q. rewrite (IH _ l1 Hh q). rewrite Hh in H. simpl in H.
      rewrite <- app_assoc in H. apply app_inv_head in H as <-. simpl.
      apply SimpleQueueProducer_put_PutOk in E as (Q & HQ & ->).
      destruct (decide (q0 = q)) as [->|Hne]; simpl.
      * rewrite lookup_insert_eq, HQ. simpl. f_equal.
        unfold after_receiving, Queue_append. simpl. by rewrite <- app_assoc.
      * by rewrite lookup_insert_ne.
    + intros H q. apply app_inv_head in H as <-. simpl. by rewrite after_receiving_nil.
    + intros H q. apply app_inv_head in H as <-. simpl. by rewrite after_receiving_nil.
Qed.

Lemma do_call_heap c s l :
  history (snd (do_call (SimpleQueueProducer_put block timeout) c s)) = history s ++ l ->
  forall q,
    heap (snd (do_call (SimpleQueueProducer_put block timeout) c s)) !! q
    = after_receiving (received q l) <$> heap s !! q.
Proof.
  assert (Hnil : forall s' : state, history s' = history s -> heap s' = heap s ->
            history s' = history s ++ l ->
            forall q, heap s' !! q = after_receiving (received q l) <$> heap s !! q).
  { intros s' Hh Hp H q. rewrite Hh in H. rewrite <- (app_nil_r (history s)) in H at 1.
    apply app_inv_head in H as <-. simpl. by rewrite after_receiving_nil, Hp. }
  destruct c as [q0|q0| |x|]; simpl.
  - by apply Hnil.
  - unfold remove_queue. destruct (list_remove q0 (queues s)); by apply Hnil.
  - by apply Hnil.
  - unfold produce. intros H q.
    destruct (broadcast_events (SimpleQueueProducer_put block timeout)
                (ncalls (history s)) x (queues s)
                (record (EvProduce (ncalls (history s)) x (queues s)) s))
      as (l1 & Hh & _).
    pose proof (broadcast_heap _ _ _ _ l1 Hh q) as Hb.
    destruct (broadcast _ _ _ _ _) as [[] s'|e s'|s']; simpl in *;
      rewrite Hb; rewrite Hh, <- app_assoc in H; apply app_inv_head in H as <-; done.
  - unfold poison. intros H q.
    destruct (broadcast_events (SimpleQueueProducer_put block timeout)
                (ncalls (history s)) get_poison (queues s)
                (record (EvPoison (ncalls (history s)) (queues s)) s))
      as (l1 & Hh & _).
    pose proof (broadcast_heap _ _ _ _ l1 Hh q) as Hb.
    destruct (broadcast _ _ _ _ _) as [[] s'|e s'|s']; simpl in *;
      rewrite Hb; rewrite Hh, <- app_assoc in H; apply app_inv_head in H as <-; done.
Qed.

(** What a queue holds after a sequence of calls is what it held before,
    followed by what it received, in the order of reception. *)
Lemma exec_heap cs s l :
  history (snd (exec (SimpleQueueProducer_put block timeout) cs s)) = history s ++ l ->
  forall q,
    heap (snd (exec (SimpleQueueProducer_put block timeout) cs s)) !! q
    = after_receiving (received q l) <$> heap s !! q.
Proof.
  revert s l. induction cs as [|c cs IH]; intros s l.
  - simpl. intros H q. rewrite <- (app_nil_r (history s)) in H at 1.
    apply app_inv_head in H as <-. simpl. by rewrite after_receiving_nil.
  - destruct (do_call_events (SimpleQueueProducer_put block timeout) c s)
      as (l1 & Hh1 & _).
    destruct (exec_cons (SimpleQueueProducer_put block timeout) c s) as [E|E];
      rewrite E; simpl.
    + by apply do_call_heap.
    + destruct (exec_events (SimpleQueueProducer_put block timeout) cs
                  (snd (do_call (SimpleQueueProducer_put block timeout) c s)))
        as (l2 & Hh2 & _).
      intros H q. rewrite (IH _ l2 Hh2 q), (do_call_heap c s l1 Hh1 q).
      rewrite Hh2, Hh1, <- app_assoc in H. apply app_inv_head in H as <-.
      by rewrite after_receiving_app, received_app.
Qed.

End QueueContents.

(** C6. Every subscriber queue receives its items in the order in which the
    produce calls were issued: the queue holds what it held before, followed
    by the items it received; those come with non-decreasing broadcast
    numbers, and the item received from broadcast [k] is the item of the
    [k]-th call.  A queue that is first registered after K broadcasts
    receives none of the first K items: all it receives, the poison item
    included, belongs to broadcast K or a later one. *)
Theorem per_subscriber_fifo (block : bool) (timeout : option Z)
    (h : gmap handle Queue) (cs : list call) (q : handle) :
  let put := SimpleQueueProducer_put block timeout in
  let l := history (snd (exec put cs (init h))) in
  heap (snd (exec put cs (init h))) !! q = after_receiving (received q l) <$> h !! q /\
  StronglySorted le (map fst (received q l)) /\
  (forall k x, (k, x) ∈ received q l -> broadcasts l !! k = Some x) /\
  (forall cs1 cs2, cs = cs1 ++ cs2 -> AddQueue q ∉ cs1 ->
     forall k x, (k, x) ∈ received q l ->
       (ncalls (history (snd (exec put cs1 (init h)))) <= k)%nat).
Proof.
  intros put l.
  destruct (exec_events put cs (init h)) as (l0 & Hh & Hnum & _).
  simpl in Hh, Hnum. fold l in Hh. subst l0.
  split; [|split; [|split]].
  - apply (exec_heap block timeout cs (init h) l). done.
  - by apply (received_sorted q 0 None).
  - intros k x Hin.
    apply (received_item q 0%nat None l [] k x); [done | done | done | done].
  - intros cs1 cs2 -> Hadd k x Hin.
    destruct (exec_events put cs1 (init h)) as (l1 & Hh1 & _ & Hq1).
    destruct (Hq1 q) as [_ Hr1]; [apply not_elem_of_nil | done |].
    destruct (exec_app put cs1 cs2 (init h)) as (l2 & Hh2 & Hn2).
    simpl in Hh1. unfold l in Hin. rewrite Hh2, Hh1, received_app, Hr1 in Hin.
    simpl in Hin. eapply received_after; [exact Hn2 | exact Hin].
Qed.

Lemma per_subscriber_fifo_witness :
  let put := SimpleQueueProducer_put true None in
  let cs1 := [AddQueue 0%nat; Produce (PyInt 1); Produce (PyInt 2); Produce (PyInt 3)] in
  let cs2 := [AddQueue 1%nat; Produce (PyInt 4); Poison] in
  let s := snd (exec put (cs1 ++ cs2) (init heap_two_free)) in
  (AddQueue 1%nat ∉ cs1) /\
  ncalls (history (snd (exec put cs1 (init heap_two_free)))) = 3%nat /\
  items <$> heap s !! 0%nat = Some [PyInt 1; PyInt 2; PyInt 3; PyInt 4; PyNone] /\
  items <$> heap s !! 1%nat = Some [PyInt 4; PyNone] /\
  (forall k x, (k, x) ∈ received 1%nat (history s) -> (3 <= k)%nat).
Proof.
  intros put cs1 cs2 s.
  assert (H : AddQueue 1%nat ∉ cs1).
  { unfold cs1. rewrite !not_elem_of_cons.
    repeat split; try discriminate. apply not_elem_of_nil. }
  split; [exact H|]. split; [vm_compute; reflexivity|].
  split; [vm_compute; reflexivity|]. split; [vm_compute; reflexivity|].
  exact (proj2 (proj2 (proj2
    (per_subscriber_fifo true None heap_two_free (cs1 ++ cs2) 1%nat)))
    cs1 cs2 eq_refl H).
Defined.

(** ** generate_news *)

Lemma append_full_stop_inj (a b : string) : a +:+ "." = b +:+ "." -> a = b.
Proof.
  revert b. induction a as [|c a IH]; intros [|c' b]; simpl; intros H.
  - done.
  - injection H as _ H. destruct b; discriminate H.
  - injection H as _ H. destruct a; discriminate H.
  - injection H as -> H. f_equal. by apply IH.
Qed.

Lemma fmt_d_inj (m n : Z) : fmt_d m = fmt_d n -> m = n.
Proof. unfold fmt_d. apply pretty_Z_inj. Qed.

(** C10. For every sequence number n the content, the headline and the
    source of [generate_news(n)] all carry the same number n.  The
    [++news_count] of the content is two unary plus signs and not an
    increment: the number in the content is never n + 1, and the step of the
    worker that calls [generate_news] leaves [self.news_count] as it was. *)
Theorem generate_news_same_number (d : string) (n : Z) :
  content (generate_news d n) = "The content for the news story " +:+ fmt_d n +:+ "." /\
  headline (generate_news d n) = "News story " +:+ fmt_d n /\
  source (generate_news d n) = "Source " +:+ fmt_d n /\
  content (generate_news d n) <> "The content for the news story " +:+ fmt_d (n + 1) +:+ "." /\
  (forall block timeout w,
     news_count (run_step block timeout (goto Producing w)) = news_count w).
Proof.
  split; [reflexivity|]. split; [reflexivity|]. split; [reflexivity|]. split.
  - unfold generate_news, pos. cbn [content]. intros H.
    apply (inj (String.app _)) in H.
    apply append_full_stop_inj, fmt_d_inj in H. lia.
  - intros block timeout w. unfold run_step. cbn [at_pos goto].
    destruct (produce _ _ _); reflexivity.
Qed.

(** ** The worker loop *)

Lemma nproduced_app l1 l2 : nproduced (l1 ++ l2) = (nproduced l1 + nproduced l2)%nat.
Proof. unfold nproduced. by rewrite List.filter_app, length_app. Qed.

Lemma npoisoned_app l1 l2 : npoisoned (l1 ++ l2) = (npoisoned l1 + npoisoned l2)%nat.
Proof. unfold npoisoned. by rewrite List.filter_app, length_app. Qed.

Lemma nproduced_cons e l :
  nproduced (e :: l) = ((if is_produce e then 1 else 0) + nproduced l)%nat.
Proof. unfold nproduced. simpl. by destruct (is_produce e). Qed.

Lemma nproduced_delivered_to k x qs : nproduced (delivered_to k x qs) = 0%nat.
Proof. unfold nproduced. by rewrite filter_delivered_to. Qed.

Lemma npoisoned_delivered_to k x qs : npoisoned (delivered_to k x qs) = 0%nat.
Proof. unfold npoisoned. by rewrite filter_delivered_to. Qed.

Section RunFacts.

Variable block : bool.
Variable timeout : option Z.

Lemma interleave_snoc sched a w :
  interleave block timeout (sched ++ [a]) w = perform block timeout (interleave block timeout sched w) a.
Proof. unfold interleave. by rewrite fold_left_app. Qed.

Lemma steps_snoc sched a :
  steps (sched ++ [a]) = (steps sched + if is_step a then 1 else 0)%nat.
Proof.
  unfold steps. rewrite List.filter_app, length_app. simpl. by destruct (is_step a).
Qed.

(** What the calls of the other threads leave alone. *)
Lemma perform_other a w :
  is_step a = false ->
  history (base (perform block timeout w a)) = history (base w) /\
  news_count (perform block timeout w a) = news_count w /\
  (at_pos w <> NotStarted -> at_pos (perform block timeout w a) = at_pos w) /\
  (is_join a = false -> stop_request (perform block timeout w a) = stop_request w) /\
  (stop_request w = true -> stop_request (perform block timeout w a) = true).
Proof.
  destruct a; simpl; try discriminate; intros _;
    unfold start, join, other_thread, remove_queue;
    try (destruct (at_pos w) eqn:E; simpl; repeat split; try done;
         try (by destruct (list_remove q (queues (base w)))));
    repeat split; done.
Qed.

(** The history only grows. *)
Lemma perform_history a w :
  exists l, history (base (perform block timeout w a)) = history (base w) ++ l.
Proof.
  destruct (is_step a) eqn:E.
  - destruct a; try discriminate. simpl. unfold run_step.
    destruct (at_pos w); simpl; try (by exists []; rewrite app_nil_r).
    + destruct (negb (stop_request w) && (news_count w <? limit)); simpl;
        [by exists []; rewrite app_nil_r | by eexists].
    + destruct (0 <? length (queues (base w)))%nat; simpl.
      * rewrite <- app_assoc. by eexists.
      * by eexists.
    + set (x := PyNews _).
      destruct (do_call_events (SimpleQueueProducer_put block timeout) (Produce x) (base w))
        as (l & Hl & _). simpl in Hl. exists l.
      by destruct (produce _ _ _).
    + destruct (do_call_events (SimpleQueueProducer_put block timeout) Poison (base w))
        as (l & Hl & _). simpl in Hl. exists l.
      by destruct (poison _ _).
  - exists []. rewrite app_nil_r. by apply perform_other.
Qed.

Lemma Waiting_stays sched w :
  at_pos w = Waiting ->
  at_pos (interleave block timeout sched w) = Waiting /\
  history (base (interleave block timeout sched w)) = history (base w) /\
  news_count (interleave block timeout sched w) = news_count w.
Proof.
  revert w. induction sched as [|a sched IH]; intros w Hw; simpl; [done|].
  assert (at_pos (perform block timeout w a) = Waiting /\
          history (base (perform block timeout w a)) = history (base w) /\
          news_count (perform block timeout w a) = news_count w) as (H1 & H2 & H3).
  { destruct (is_step a) eqn:E.
    - destruct a; try discriminate. simpl. unfold run_step. by rewrite Hw.
    - destruct (perform_other a w E) as (? & ? & Hp & _).
      rewrite Hp; [done | congruence]. }
  destruct (IH _ H1) as (? & ? & ?). repeat split; congruence.
Qed.

(** One action keeps the worker on schedule, as long as it is not a stop
    request and the tick, if it is one, finds a subscriber. *)
Lemma on_schedule_perform k a w :
  on_schedule k w ->
  is_join a = false ->
  EvTick 0 ∉ history (base (perform block timeout w a)) ->
  on_schedule (k + if is_step a then 1 else 0) (perform block timeout w a).
Proof.
  intros [Hstop Hinv] Hj Htick.
  destruct (is_step a) eqn:E.
  - destruct a; try discriminate. simpl in *. unfold on_schedule, run_step in *.
    unfold limit in *.
    destruct (at_pos w) eqn:Hpos; simpl in *; rewrite ?Hpos; try done.
    + (* LoopTest *)
      rewrite Hstop. simpl.
      destruct (Z.ltb_spec (news_count w) 10); simpl.
      * split; [done|]. lia.
      * split; [done|]. rewrite nproduced_app, npoisoned_app.
        unfold nproduced, npoisoned in *. simpl. lia.
    + (* CountTest *)
      destruct (Nat.ltb_spec 0 (length (queues (base w)))); simpl in *.
      * split; [done|]. rewrite <- app_assoc, nproduced_app, npoisoned_app.
        unfold nproduced, npoisoned in *. simpl. lia.
      * exfalso. apply Htick. apply elem_of_app. right.
        replace (length (queues (base w))) with 0%nat by lia. apply elem_of_cons. by left.
    + (* Producing *)
      set (x := PyNews _) in *.
      destruct (produce _ x (base w)) as [[] s'|e s'|s'] eqn:Hp; simpl; try done.
      apply produce_Return in Hp as [_ Hh]. split; [done|].
      rewrite Hh, nproduced_app, npoisoned_app.
      change (EvProduce ?k ?x ?qs :: ?l) with ([EvProduce k x qs] ++ l).
      rewrite nproduced_app, npoisoned_app, nproduced_delivered_to, npoisoned_delivered_to.
      unfold nproduced, npoisoned in *. simpl. lia.
    + (* Sleeping *)
      split; [done|]. lia.
    + (* Poisoning *)
      destruct (poison _ (base w)) as [[] s'|e s'|s'] eqn:Hp; simpl; try done.
      apply poison_Return in Hp as [_ Hh]. split; [done|].
      rewrite Hh, nproduced_app, npoisoned_app.
      change (EvPoison ?k ?qs :: ?l) with ([EvPoison k qs] ++ l).
      rewrite nproduced_app, npoisoned_app, nproduced_delivered_to, npoisoned_delivered_to.
      split; [lia|]. split; [lia|].
      split; [unfold nproduced, npoisoned in *; simpl; lia|].
      split; [unfold nproduced, npoisoned in *; simpl; lia|].
      eexists _, _, _, _. split; [reflexivity|]. apply nproduced_delivered_to.
    + (* Finished *)
      split; [done|]. destruct Hinv as (? & ? & ? & ? & ?). repeat split; try done. lia.
  - destruct (perform_other a w E) as (Hh & Hc & Hp & Hs & _).
    unfold on_schedule in *. rewrite Hh, Hc, (Hs Hj), Nat.add_0_r.
    destruct (at_pos w) eqn:Hpos; try done; rewrite Hp; done.
Qed.

Lemma on_schedule_interleave sched w :
  on_schedule 0 w ->
  never_asked_to_stop sched = true ->
  EvTick 0 ∉ history (base (interleave block timeout sched w)) ->
  on_schedule (steps sched) (interleave block timeout sched w).
Proof.
  unfold never_asked_to_stop. intros H0. induction sched as [|a sched IH] using rev_ind; intros Hj Htick.
  - exact H0.
  - rewrite forallb_app in Hj. apply andb_true_iff in Hj as [Hj Ha].
    simpl in Ha. rewrite andb_true_r in Ha. apply negb_true_iff in Ha.
    rewrite interleave_snoc, steps_snoc. rewrite interleave_snoc in Htick.
    apply on_schedule_perform; [|done|done].
    apply IH; [done|].
    destruct (perform_history a (interleave block timeout sched w)) as (l & Hl).
    rewrite Hl in Htick. intros Hin. apply Htick. apply elem_of_app. by left.
Qed.

Lemma every_tick_found_a_subscriber_spec l :
  every_tick_found_a_subscriber l = true -> EvTick 0 ∉ l.
Proof.
  unfold every_tick_found_a_subscriber. intros H Hin.
  apply list_elem_of_In in Hin.
  eapply forallb_forall in H; [|exact Hin]. discriminate H.
Qed.

(** C5. A worker (limit 10) that is never asked to stop and finds a
    subscriber at every tick completes: given its 42 steps, and unless an
    insertion raised or is stuck, it has finished.  When it has finished, the
    produced count is 10, there are ten produce calls and exactly one poison
    broadcast in its history, and no produce call follows the poison. *)
Theorem natural_completion (h : gmap handle Queue) (d : string) (sched : list action) :
  let w := interleave block timeout sched (start (new_NewsProducer h d)) in
  never_asked_to_stop sched = true ->
  every_tick_found_a_subscriber (history (base w)) = true ->
  ((42 <= steps sched)%nat ->
   at_pos w <> Waiting -> (forall e, at_pos w <> Crashed e) ->
   at_pos w = Finished) /\
  (at_pos w = Finished ->
   news_count w = 10 /\
   nproduced (history (base w)) = 10%nat /\
   npoisoned (history (base w)) = 1%nat /\
   exists l1 j qs l2,
     history (base w) = l1 ++ EvPoison j qs :: l2 /\ nproduced l2 = 0%nat).
Proof.
  intros w Hstop Htick.
  apply every_tick_found_a_subscriber_spec in Htick.
  assert (H0 : on_schedule 0 (start (new_NewsProducer h d))).
  { unfold on_schedule, limit. simpl. repeat split; try done. }
  pose proof (on_schedule_interleave sched _ H0 Hstop Htick) as [_ Hinv].
  fold w in Hinv. unfold limit in Hinv. split.
  - intros Hk Hw Hc. destruct (at_pos w) eqn:E; try done; try lia.
    by destruct (Hc e).
  - intros E. rewrite E in Hinv. destruct Hinv as (Hc & _ & Hp & Hq & Hl).
    repeat split; try done. lia.
Qed.

(** *** After a stop request *)

Lemma run_step_stop_request w :
  stop_request (run_step block timeout w) = stop_request w.
Proof.
  unfold run_step. destruct (at_pos w); simpl; try done.
  - by destruct (negb (stop_request w) && (news_count w <? limit)).
  - by destruct (0 <? length (queues (base w)))%nat.
  - by destruct (produce _ _ _).
  - by destruct (poison _ _).
Qed.

Lemma stop_request_stays sched w :
  stop_request w = true -> stop_request (interleave block timeout sched w) = true.
Proof.
  revert w. induction sched as [|a sched IH]; intros w Hw; simpl; [done|].
  apply IH. destruct (is_step a) eqn:E.
  - destruct a; try discriminate. simpl. by rewrite run_step_stop_request.
  - by apply perform_other.
Qed.

Lemma stopping_perform w0 sched w a :
  stopping w0 sched w ->
  stopping w0 (sched ++ [a]) (perform block timeout w a).
Proof.
  unfold stopping. rewrite steps_snoc. intros (Hstop & Hc & Hct & Hk).
  destruct (is_step a) eqn:E.
  - destruct a; try discriminate. simpl.
    rewrite run_step_stop_request. split; [done|].
    unfold run_step.
    destruct (at_pos w) eqn:Hpos; simpl in *; rewrite ?Hpos; simpl;
      try (repeat split; try done; lia).
    + rewrite Hstop. simpl. repeat split; try done; lia.
    + specialize (Hct eq_refl).
      destruct (0 <? length (queues (base w)))%nat; simpl; repeat split; try done; lia.
    + destruct (produce _ _ _) as [[] s'|e s'|s']; simpl; repeat split; try done; lia.
    + destruct (poison _ _) as [[] s'|e s'|s']; simpl; repeat split; try done; lia.
  - destruct (perform_other a w E) as (_ & Hn & Hp & _ & Hs).
    assert (Hne : at_pos w <> NotStarted).
    { intros Hns. rewrite Hns in Hk. simpl in Hk. lia. }
    rewrite (Hp Hne), Hn, (Hs Hstop), Nat.add_0_r. done.
Qed.

Lemma stopping_interleave w sched :
  running w = true ->
  stopping w sched (interleave block timeout sched (join w)).
Proof.
  intros Hrun. induction sched as [|a sched IH] using rev_ind.
  - unfold stopping. simpl. unfold running in Hrun.
    repeat split; try done; try lia.
    left. destruct (at_pos w); simpl; try discriminate; lia.
  - rewrite interleave_snoc. by apply stopping_perform.
Qed.

(** C9 (amended). [join] always sets the stop request before it waits, and
    the request stays set.  A join issued while the worker is inside its
    loop lets the tick in flight run to its end (at most one more item is
    produced) and then makes the worker leave the loop, whatever the count:
    after five more steps the thread is over, unless it is stuck in an
    insertion that waits for room in a full queue. *)
Theorem join_stops_worker (w : NewsProducer) (sched : list action) :
  let wf := interleave block timeout sched (join w) in
  stop_request (join w) = true /\
  stop_request wf = true /\
  (running w = true ->
   news_count w <= news_count wf <= news_count w + 1 /\
   ((5 <= steps sched)%nat -> at_pos wf <> Waiting -> terminated wf = true)).
Proof.
  intros wf. split; [done|]. split; [by apply stop_request_stays|].
  intros Hrun. destruct (stopping_interleave w sched Hrun) as (_ & Hc & _ & Hk).
  fold wf in Hc, Hk. split; [done|].
  intros H5 Hw. unfold terminated.
  destruct (at_pos wf); simpl in Hk; try done; lia.
Qed.

Lemma winding_down_perform w0 sched a :
  winding_down block timeout w0 sched (interleave block timeout sched (join w0)) ->
  winding_down block timeout w0 (sched ++ [a])
    (perform block timeout (interleave block timeout sched (join w0)) a).
Proof.
  set (w := interleave block timeout sched (join w0)).
  unfold winding_down. rewrite steps_snoc.
  intros (Hstop & Hc & (l & Hl & Hnp) & Hpos).
  destruct (is_step a) eqn:E.
  - destruct a; try discriminate. simpl.
    rewrite run_step_stop_request. split; [done|].
    unfold run_step.
    destruct (at_pos w) eqn:Hp; simpl in *; rewrite ?Hp; simpl; try done.
    + (* LoopTest *)
      rewrite Hstop. simpl. destruct Hpos as [Hk Hh].
      split; [done|]. rewrite Hh. split; [by eexists|]. split; [lia | done].
    + (* Sleeping *)
      destruct Hpos as [Hk Hh]. split; [done|]. split; [by exists l|].
      split; [lia | done].
    + (* Poisoning *)
      destruct Hpos as [Hk Hh].
      assert (Hn : ncalls (history (base w)) = ncalls (history (base w0))).
      { rewrite Hh, ncalls_app. unfold ncalls at 2. simpl. lia. }
      destruct (poison _ (base w)) as [[] s'|e s'|s'] eqn:Hpoi; simpl.
      * apply poison_Return in Hpoi as [_ Hh']. rewrite Hn, Hh in Hh'.
        split; [done|]. split.
        { eexists. rewrite Hh', <- app_assoc. split; [done|].
          simpl. rewrite !nproduced_cons. apply nproduced_delivered_to. }
        exists sched, []. split; [done|]. fold w. simpl.
        rewrite Hh', <- app_assoc. done.
      * apply poison_Raise in Hpoi as (pre & q & post & _ & _ & Hh').
        rewrite Hn, Hh in Hh'. split; [done|]. split; [|done].
        eexists. rewrite Hh', <- app_assoc. split; [done|]. simpl.
        rewrite !nproduced_cons, nproduced_app, nproduced_delivered_to. done.
      * apply poison_Blocks in Hpoi as (pre & q & post & _ & _ & Hh').
        rewrite Hn, Hh in Hh'. split; [done|]. split; [|done].
        eexists. rewrite Hh', <- app_assoc. split; [done|]. simpl.
        rewrite !nproduced_cons, nproduced_app, nproduced_delivered_to. done.
    + (* Finished *)
      split; [done|]. split; [by exists l|].
      destruct Hpos as (sched1 & sched2 & -> & Hh).
      exists sched1, (sched2 ++ [Step]). by rewrite <- app_assoc.
    + split; [done|]. split; [by exists l | done].
    + split; [done|]. split; [by exists l | done].
  - destruct (perform_other a w E) as (Hh & Hn & Hp & _ & Hs).
    assert (Hne : at_pos w <> NotStarted).
    { intros Hns. by rewrite Hns in Hpos. }
    rewrite (Hp Hne), Hn, Hh, (Hs Hstop), Nat.add_0_r.
    split; [done|]. split; [done|]. split; [by exists l|].
    destruct (at_pos w); try done.
    destruct Hpos as (sched1 & sched2 & -> & Hh').
    exists sched1, (sched2 ++ [a]). by rewrite <- app_assoc.
Qed.

Lemma winding_down_interleave w0 sched :
  at_pos w0 = Sleeping \/ at_pos w0 = LoopTest ->
  winding_down block timeout w0 sched (interleave block timeout sched (join w0)).
Proof.
  intros Hpos. induction sched as [|a sched IH] using rev_ind.
  - unfold winding_down. simpl. split; [done|]. split; [done|].
    split; [exists []; by rewrite app_nil_r|].
    unfold steps. destruct Hpos as [-> | ->]; simpl; split; (done || lia).
  - rewrite interleave_snoc. by apply winding_down_perform.
Qed.

(** C8 (amended). When the stop request is set after the worker has produced
    2 items, while it sleeps or stands at the tick boundary, the count stays
    2 and no produce call is made any more.  At the tick boundary the worker
    leaves the loop and calls [poison()] once; if that call returns, the
    poison item has been delivered to every queue registered when the call
    was made, and the thread has finished.  Three steps are enough for that,
    unless an insertion of the poison raised or is stuck. *)
Theorem stop_after_two (w : NewsProducer) (sched : list action) :
  news_count w = 2 ->
  at_pos w = Sleeping \/ at_pos w = LoopTest ->
  let wf := interleave block timeout sched (join w) in
  news_count wf = 2 /\
  nproduced (history (base wf)) = nproduced (history (base w)) /\
  ((3 <= steps sched)%nat ->
   at_pos wf <> Waiting -> (forall e, at_pos wf <> Crashed e) ->
   at_pos wf = Finished) /\
  (at_pos wf = Finished ->
   exists sched1 sched2,
     sched = sched1 ++ Step :: sched2 /\
     let before := base (interleave block timeout sched1 (join w)) in
     during (base w) (base wf) =
       [EvLog "info" "Sending poison pill!";
        EvPoison (ncalls (history (base w))) (queues before)] ++
       delivered_to (ncalls (history (base w))) PyNone (queues before)).
Proof.
  intros Hc Hpos wf.
  destruct (winding_down_interleave w sched Hpos) as (_ & Hn & (l & Hl & Hnp) & Hinv).
  fold wf in Hn, Hl, Hinv.
  split; [congruence|]. split; [rewrite Hl, nproduced_app; lia|]. split.
  - intros H3 Hw Hcr. destruct (at_pos wf); try done; try lia.
    by destruct (Hcr e).
  - intros E. rewrite E in Hinv. destruct Hinv as (sched1 & sched2 & -> & Hh).
    exists sched1, sched2. split; [done|]. by apply during_app.
Qed.

End RunFacts.

(** *** The worker on concrete schedules *)

Lemma natural_completion_witness :
  let sched := Add 0%nat :: repeat Step 42 in
  let w := interleave true None sched
             (start (new_NewsProducer (<[0%nat := unbounded]> ∅) "2024/05/17")) in
  (never_asked_to_stop sched = true /\
   every_tick_found_a_subscriber (history (base w)) = true /\
   (42 <= steps sched)%nat) /\
  at_pos w = Finished /\
  news_count w = 10 /\
  nproduced (history (base w)) = 10%nat /\
  npoisoned (history (base w)) = 1%nat.
Proof.
  intros sched w.
  assert (H1 : never_asked_to_stop sched = true) by (vm_compute; reflexivity).
  assert (H2 : every_tick_found_a_subscriber (history (base w)) = true)
    by (vm_compute; reflexivity).
  assert (H3 : (42 <= steps sched)%nat) by (vm_compute; lia).
  destruct (natural_completion true None (<[0%nat := unbounded]> ∅) "2024/05/17"
              sched H1 H2) as [Ha Hb].
  assert (Hf : at_pos w = Finished).
  { apply Ha; [exact H3 | vm_compute; discriminate | intros e; vm_compute; discriminate]. }
  destruct (Hb Hf) as (Hc & Hp & Hq & _).
  split; [exact (conj H1 (conj H2 H3))|].
  split; [exact Hf|]. split; [exact Hc|]. split; [exact Hp | exact Hq].
Defined.

Lemma stop_after_two_witness :
  let w := interleave true None (repeat Step 7) first_of_two in
  let sched := [Step; Add 1%nat; Step; Step] in
  let wf := interleave true None sched (join w) in
  (news_count w = 2 /\ (at_pos w = Sleeping \/ at_pos w = LoopTest)) /\
  news_count wf = 2 /\
  nproduced (history (base wf)) = nproduced (history (base w)) /\
  at_pos wf = Finished /\
  during (base w) (base wf) =
    [EvLog "info" "Sending poison pill!"; EvPoison 2 [0%nat; 1%nat];
     EvPut 2 0%nat PyNone Delivered; EvPut 2 1%nat PyNone Delivered].
Proof.
  intros w sched wf.
  assert (H1 : news_count w = 2) by (vm_compute; reflexivity).
  assert (H2 : at_pos w = Sleeping \/ at_pos w = LoopTest)
    by (left; vm_compute; reflexivity).
  destruct (stop_after_two true None w sched H1 H2) as (Hc & Hp & Hf & _).
  split; [exact (conj H1 H2)|]. split; [exact Hc|]. split; [exact Hp|].
  split; [|vm_compute; reflexivity].
  apply Hf; [vm_compute; lia | vm_compute; discriminate | intros e; vm_compute; discriminate].
Defined.

(** The poison can be lost.  The only subscriber is a Queue(maxsize=2) that
    nobody reads and the producer does not block.  After two items the stop
    request is set while the worker sleeps; at the tick boundary [poison()]
    raises queue.Full: the sentinel is not delivered to the registered queue
    and the thread ends with that exception. *)
Lemma poison_lost_after_stop :
  let w := interleave false None (repeat Step 7) slow_subscriber in
  let wf := interleave false None (repeat Step 3) (join w) in
  news_count w = 2 /\ at_pos w = Sleeping /\
  queues (base wf) = [0%nat] /\
  news_count wf = 2 /\
  at_pos wf = Crashed Full /\
  deliveries (during (base w) (base wf)) = [] /\
  put_calls (during (base w) (base wf)) = [(0%nat, PyNone)].
Proof. repeat split; vm_compute; reflexivity. Qed.

(** The stop is not preemptive.  A stop request that arrives when the third
    tick has passed the loop test lets that tick produce its item: the
    worker finishes with a count of 3. *)
Lemma stop_during_tick_in_flight :
  let w := interleave true None (repeat Step 9) one_subscriber in
  let wf := interleave true None (repeat Step 5) (join w) in
  news_count w = 2 /\ at_pos w = CountTest /\
  news_count wf = 3 /\ at_pos wf = Finished.
Proof. repeat split; vm_compute; reflexivity. Qed.

Lemma join_stops_worker_witness :
  let w := interleave true None [Step] one_subscriber in
  let wf := interleave true None (repeat Step 5) (join w) in
  running w = true /\ news_count w = 0 /\
  stop_request wf = true /\
  news_count wf = 1 /\
  terminated wf = true.
Proof.
  intros w wf.
  assert (H : running w = true) by (vm_compute; reflexivity).
  destruct (join_stops_worker true None w (repeat Step 5)) as (_ & Hs & Hr).
  destruct (Hr H) as [_ Ht].
  split; [exact H|]. split; [vm_compute; reflexivity|]. split; [exact Hs|].
  split; [vm_compute; reflexivity|].
  apply Ht; [vm_compute; lia | vm_compute; discriminate].
Defined.

(** A join need not end the worker.  The only subscriber is a full
    Queue(maxsize=1) that nobody reads, and the producer blocks without a
    timeout (the default).  The join finds the worker at the tick boundary;
    the worker leaves the loop and waits in the insertion of the poison item
    for room that never comes: fifty steps later the thread is still not
    over. *)
Lemma join_never_returns :
  let w := stuck_subscriber in
  let wf := interleave true None (repeat Step 50) (join w) in
  running w = true /\
  stop_request wf = true /\
  at_pos wf = Waiting /\
  terminated wf = false.
Proof. repeat split; vm_compute; reflexivity. Qed.


(** * Further properties of the registry *)

(** ** Registrations *)

Lemma registrations_app q l1 l2 :
  registrations q (l1 ++ l2) = (registrations q l1 + registrations q l2)%nat.
Proof. unfold registrations. by rewrite List.filter_app, length_app. Qed.

Lemma registrations_cons q q0 l :
  registrations q (q0 :: l)
  = ((if decide (q0 = q) then 1 else 0) + registrations q l)%nat.
Proof.
  unfold registrations. simpl.
  destruct (decide (q0 = q)) as [->|Hne].
  - by rewrite Nat.eqb_refl.
  - destruct (Nat.eqb_spec q q0); [congruence | done].
Qed.

Lemma registrations_0 q l : registrations q l = 0%nat <-> q ∉ l.
Proof.
  induction l as [|q0 l IH].
  - split; [intros _; apply not_elem_of_nil | done].
  - rewrite registrations_cons, not_elem_of_cons.
    destruct (decide (q0 = q)) as [->|Hne].
    + split; [lia | intros [? _]; done].
    + split.
      * intros H. split; [congruence | apply IH; lia].
      * intros [_ H]. apply IH in H. lia.
Qed.

(** [list.remove] takes out the first occurrence and nothing else. *)
Lemma list_remove_elem (x : handle) (l : list handle) :
  x ∈ l ->
  exists pre post,
    l = pre ++ x :: post /\ (x ∉ pre) /\ list_remove x l = Some (pre ++ post).
Proof.
  induction l as [|y l IH]; intros Hin.
  - by apply elem_of_nil in Hin.
  - simpl. destruct (decide (y = x)) as [->|Hne].
    + exists [], l. split; [done|]. split; [apply not_elem_of_nil | done].
    + apply elem_of_cons in Hin as [->|Hin]; [done|].
      destruct (IH Hin) as (pre & post & -> & Hpre & ->).
      exists (y :: pre), post. split; [done|]. split; [|done].
      apply not_elem_of_cons. split; [congruence | done].
Qed.

(** X1. [remove_queue] of a registered queue returns and takes out the
    first registration of that queue only: the other registrations of the
    same queue, every other queue, and the order of what is left are kept;
    the queue objects and the history are not touched. *)
Theorem remove_queue_first_registration (q : handle) (s : state) :
  q ∈ queues s ->
  exists pre post,
    queues s = pre ++ q :: post /\
    (q ∉ pre) /\
    remove_queue q s = Return tt (set_queues (pre ++ post) s) /\
    S (registrations q (pre ++ post)) = registrations q (queues s) /\
    (forall q', q' <> q ->
       registrations q' (pre ++ post) = registrations q' (queues s)).
Proof.
  intros Hin. destruct (list_remove_elem q (queues s) Hin) as (pre & post & Hl & Hpre & Hr).
  exists pre, post. split; [done|]. split; [done|]. split.
  - unfold remove_queue. by rewrite Hr.
  - rewrite Hl, !registrations_app, !registrations_cons. split.
    + case_decide; [lia | done].
    + intros q' Hne. rewrite !registrations_app, registrations_cons.
      case_decide; [congruence | lia].
Qed.

Lemma remove_queue_first_registration_witness :
  let s := set_queues [0%nat; 1%nat; 0%nat] (init heap_two_free) in
  (0%nat ∈ queues s) /\
  remove_queue 0%nat s = Return tt (set_queues [1%nat; 0%nat] s) /\
  registrations 0%nat (queues s) = 2%nat.
Proof.
  intros s.
  assert (H : 0%nat ∈ queues s) by (apply elem_of_cons; by left).
  split; [exact H|].
  destruct (remove_queue_first_registration 0%nat s H) as (pre & post & _ & _ & _ & Hn & _).
  split; [vm_compute; reflexivity|].
  vm_compute in Hn |- *. reflexivity.
Defined.

Lemma list_remove_app (x : handle) (pre rest : list handle) :
  x ∉ pre -> list_remove x (pre ++ x :: rest) = Some (pre ++ rest).
Proof.
  induction pre as [|y pre IH]; intros Hx; simpl.
  - by case_decide.
  - apply not_elem_of_cons in Hx as [Hne Hx].
    case_decide; [congruence|]. by rewrite (IH Hx).
Qed.

Lemma list_remove_snoc_Some (x : handle) (l : list handle) :
  exists r, list_remove x (l ++ [x]) = Some r /\ length r = length l.
Proof.
  destruct (list_remove x (l ++ [x])) as [r|] eqn:E.
  - exists r. split; [done|]. apply list_remove_Some_length in E.
    rewrite length_app in E. simpl in E. lia.
  - apply list_remove_None in E. exfalso. apply E.
    apply elem_of_app. right. apply elem_of_cons. by left.
Qed.

(** X2. [add_queue(q)] followed by [remove_queue(q)] always returns and
    restores the number of registered queues, the queue objects and the
    history.  When [q] was not registered before, it restores the registry
    exactly; when it was, the earlier registration is the one that goes, so
    that [q] ends up last in the order of delivery. *)
Theorem add_then_remove (q : handle) (s : state) :
  exists s',
    remove_queue q (final (add_queue q s)) = Return tt s' /\
    length (queues s') = length (queues s) /\
    heap s' = heap s /\ history s' = history s /\
    (q ∉ queues s -> s' = s) /\
    (forall pre post, queues s = pre ++ q :: post -> q ∉ pre ->
       queues s' = pre ++ post ++ [q]).
Proof.
  unfold add_queue, remove_queue. simpl.
  destruct (list_remove_snoc_Some q (queues s)) as (r & Hr & Hlen).
  rewrite Hr. eexists. split; [reflexivity|]. simpl.
  split; [done|]. split; [done|]. split; [done|]. split.
  - intros Hq.
    rewrite <- (app_nil_r (queues s ++ [q])), <- app_assoc in Hr. simpl in Hr.
    rewrite (list_remove_app q _ [] Hq), app_nil_r in Hr. injection Hr as <-.
    by destruct s.
  - intros pre post Hl Hpre. rewrite Hl, <- app_assoc in Hr. simpl in Hr.
    rewrite (list_remove_app q pre _ Hpre) in Hr. by injection Hr as <-.
Qed.

(** ** What a broadcast leaves in the queues *)

Lemma received_delivered_to q k x qs :
  map snd (received q (delivered_to k x qs)) = replicate (registrations q qs) x.
Proof.
  induction qs as [|q0 qs IH]; [done|].
  rewrite registrations_cons. simpl.
  case_decide; simpl; by rewrite IH.
Qed.

Lemma after_receiving_delivered_to q k x qs (o : option Queue) :
  after_receiving (received q (delivered_to k x qs)) <$> o
  = with_copies (registrations q qs) x <$> o.
Proof.
  destruct o as [Q|]; [|done]. simpl. f_equal.
  unfold after_receiving, with_copies. by rewrite received_delivered_to.
Qed.

Lemma broadcast_Return_heap block timeout k x qs s s' :
  broadcast (SimpleQueueProducer_put block timeout) k x qs s = Return tt s' ->
  forall q, heap s' !! q = with_copies (registrations q qs) x <$> heap s !! q.
Proof.
  intros H q. pose proof H as H'. apply broadcast_Return in H' as [_ Hh].
  pose proof (broadcast_heap block timeout k x qs s (delivered_to k x qs)) as Hb.
  rewrite H in Hb. simpl in Hb. rewrite (Hb Hh q).
  apply after_receiving_delivered_to.
Qed.

(** X3. A [produce(item)] of a SimpleQueueProducer that returns has appended
    the item to every queue object once for each of its registrations: a
    queue registered twice gets the item twice, a queue that is not
    registered is left as it was, and no queue loses an item or changes its
    bound. *)
Theorem produce_copies (block : bool) (timeout : option Z)
    (x : item) (s s' : state) :
  produce (SimpleQueueProducer_put block timeout) x s = Return tt s' ->
  forall q,
    heap s' !! q = with_copies (registrations q (queues s)) x <$> heap s !! q.
Proof.
  intros H q. unfold produce in H.
  by rewrite (broadcast_Return_heap _ _ _ _ _ _ _ H q).
Qed.

Lemma produce_copies_witness :
  let put := SimpleQueueProducer_put true None in
  let s := set_queues [0%nat; 0%nat] (init heap_two_free) in
  let s' := final (produce put (PyInt 7) s) in
  produce put (PyInt 7) s = Return tt s' /\
  items <$> heap s' !! 0%nat = Some [PyInt 7; PyInt 7] /\
  items <$> heap s' !! 1%nat = Some [].
Proof.
  intros put s s'.
  assert (H : produce put (PyInt 7) s = Return tt s') by (vm_compute; reflexivity).
  split; [exact H|].
  rewrite !(produce_copies true None (PyInt 7) s s' H).
  split; vm_compute; reflexivity.
Defined.

(** ** Queues without a bound *)

Lemma Queue_put_unbounded x block timeout Q :
  maxsize Q <= 0 -> Queue_put x block timeout Q = PutOk (Queue_append x Q).
Proof.
  intros H. unfold Queue_put. by destruct (Z.ltb_spec 0 (maxsize Q)); [lia|].
Qed.

Lemma broadcast_unbounded block timeout k x qs s :
  (forall q, q ∈ qs -> exists Q, heap s !! q = Some Q /\ maxsize Q <= 0) ->
  exists s', broadcast (SimpleQueueProducer_put block timeout) k x qs s = Return tt s'.
Proof.
  revert s. induction qs as [|q0 qs IH]; intros s Hqs; simpl.
  - by eexists.
  - destruct (Hqs q0) as (Q0 & HQ0 & Hm0); [apply elem_of_cons; by left|].
    unfold SimpleQueueProducer_put at 1.
    rewrite HQ0, (Queue_put_unbounded _ _ _ _ Hm0).
    apply IH. simpl. intros q Hq.
    destruct (Hqs q) as (Q & HQ & Hm); [apply elem_of_cons; by right|].
    destruct (decide (q0 = q)) as [->|Hne].
    + rewrite lookup_insert_eq. eexists. split; [done|]. simpl.
      rewrite HQ0 in HQ. by injection HQ as ->.
    + rewrite lookup_insert_ne by done. by exists Q.
Qed.

Lemma unbounded_subscribers_broadcast block timeout k x (s0 s s' : state) :
  queues s0 = queues s -> heap s0 = heap s ->
  broadcast (SimpleQueueProducer_put block timeout) k x (queues s) s0 = Return tt s' ->
  unbounded_subscribers s -> unbounded_subscribers s'.
Proof.
  intros Hq0 Hh0 H Hs q Hin.
  pose proof (broadcast_Return_heap _ _ _ _ _ _ _ H q) as Hb.
  apply broadcast_Return in H as [Hq _]. rewrite Hq, Hq0 in Hin.
  destruct (Hs q Hin) as (Q & HQ & Hm).
  rewrite Hb, Hh0, HQ. simpl. by eexists.
Qed.

(** X4. With queues without a bound (maxsize <= 0) the insertion policy
    does not matter: whatever [block] and [timeout] are, [produce] and
    [poison] return, and the registered queues are still without a bound
    afterwards. *)
Theorem unbounded_never_fails (block : bool) (timeout : option Z)
    (x : item) (s : state) :
  unbounded_subscribers s ->
  (exists s',
     produce (SimpleQueueProducer_put block timeout) x s = Return tt s' /\
     unbounded_subscribers s') /\
  (exists s',
     poison (SimpleQueueProducer_put block timeout) s = Return tt s' /\
     unbounded_subscribers s').
Proof.
  intros Hs. split.
  - destruct (broadcast_unbounded block timeout (ncalls (history s)) x (queues s)
                (record (EvProduce (ncalls (history s)) x (queues s)) s) Hs)
      as (s' & H).
    exists s'. split; [exact H|].
    by apply (unbounded_subscribers_broadcast block timeout _ _
                (record (EvProduce (ncalls (history s)) x (queues s)) s) s s'
                eq_refl eq_refl H).
  - destruct (broadcast_unbounded block timeout (ncalls (history s)) get_poison (queues s)
                (record (EvPoison (ncalls (history s)) (queues s)) s) Hs)
      as (s' & H).
    exists s'. split; [exact H|].
    by apply (unbounded_subscribers_broadcast block timeout _ _
                (record (EvPoison (ncalls (history s)) (queues s)) s) s s'
                eq_refl eq_refl H).
Qed.

Lemma unbounded_subscribers_two_free : unbounded_subscribers two_free.
Proof.
  intros q Hq. simpl in Hq. exists unbounded.
  apply elem_of_cons in Hq as [->|Hq]; [split; [reflexivity | simpl; lia]|].
  apply elem_of_cons in Hq as [->|Hq]; [split; [reflexivity | simpl; lia]|].
  by apply elem_of_nil in Hq.
Defined.

Lemma unbounded_never_fails_witness :
  unbounded_subscribers two_free /\
  (exists s',
     produce (SimpleQueueProducer_put false (Some (-1))) (PyInt 7) two_free = Return tt s' /\
     unbounded_subscribers s') /\
  (exists s',
     poison (SimpleQueueProducer_put false (Some (-1))) two_free = Return tt s' /\
     unbounded_subscribers s').
Proof.
  split; [exact unbounded_subscribers_two_free|].
  exact (unbounded_never_fails false (Some (-1)) (PyInt 7) two_free
           unbounded_subscribers_two_free).
Defined.

(** ** The poison item is an ordinary item *)

Section PoisonIsNone.

Variable _put : item -> handle -> gmap handle Queue -> put_result (gmap handle Queue).

(** The course of a broadcast depends on the queue objects only, not on the
    history or on the number of the broadcast. *)
Lemma broadcast_same_heap k k' x qs (s t : state) :
  heap s = heap t ->
  fst (untyped (fun _ => None) (broadcast _put k x qs s))
  = fst (untyped (fun _ => None) (broadcast _put k' x qs t)) /\
  heap (final (broadcast _put k x qs s)) = heap (final (broadcast _put k' x qs t)) /\
  exists l l',
    history (final (broadcast _put k x qs s)) = history s ++ l /\
    history (final (broadcast _put k' x qs t)) = history t ++ l' /\
    put_calls l = put_calls l'.
Proof.
  revert s t. induction qs as [|q qs IH]; intros s t Hh; simpl.
  - split; [done|]. split; [done|]. exists [], []. by rewrite !app_nil_r.
  - rewrite <- Hh. destruct (_put x q (heap s)) as [h'|e|]; simpl.
    + destruct (IH (record (EvPut k q x Delivered) (set_heap h' s))
                   (record (EvPut k' q x Delivered) (set_heap h' t)) eq_refl)
        as (H1 & H2 & l & l' & Hl & Hl' & H3).
      split; [done|]. split; [done|].
      exists (EvPut k q x Delivered :: l), (EvPut k' q x Delivered :: l').
      simpl in *. rewrite Hl, Hl', <- !app_assoc, H3. done.
    + split; [done|]. split; [done|]. by eexists [_], [_].
    + split; [done|]. split; [done|]. by eexists [_], [_].
Qed.

(** X5. For the queues [poison()] is [produce(None)]: the two calls end in
    the same way for the caller (return, the same exception, or a wait),
    make the same insertions and leave the same queue contents and the same
    registrations.  A consumer cannot tell a produced None from the poison. *)
Theorem poison_is_produce_None (s : state) :
  fst (do_call _put Poison s) = fst (do_call _put (Produce PyNone) s) /\
  heap (snd (do_call _put Poison s)) = heap (snd (do_call _put (Produce PyNone) s)) /\
  queues (snd (do_call _put Poison s)) = queues (snd (do_call _put (Produce PyNone) s)) /\
  put_calls (during s (snd (do_call _put Poison s)))
  = put_calls (during s (snd (do_call _put (Produce PyNone) s))).
Proof.
  simpl. unfold poison, produce, get_poison.
  set (k := ncalls (history s)).
  set (s1 := record (EvPoison k (queues s)) s).
  set (s2 := record (EvProduce k PyNone (queues s)) s).
  destruct (broadcast_same_heap k k PyNone (queues s) s1 s2 eq_refl)
    as (H1 & H2 & l1 & l2 & Hl1 & Hl2 & H3).
  destruct (broadcast_events _put k PyNone (queues s) s1) as (? & _ & Hq1 & _).
  destruct (broadcast_events _put k PyNone (queues s) s2) as (? & _ & Hq2 & _).
  assert (Hs : forall o : outcome unit, snd (untyped (fun _ => None) o) = final o)
    by (by intros [[] ?|? ?|?]).
  rewrite !Hs. split; [done|]. split; [done|]. split; [by rewrite Hq1, Hq2|].
  simpl in Hl1, Hl2. rewrite <- app_assoc in Hl1, Hl2.
  rewrite (during_app _ _ _ Hl1), (during_app _ _ _ Hl2). simpl. done.
Qed.

End PoisonIsNone.

(** ** The items of the worker *)

(** X6. [generate_news] gives different items for different sequence
    numbers, and the date of the item is the date of the call: two items are
    equal only if they have the same number and the same date. *)
Theorem generate_news_inj (d d' : string) (m n : Z) :
  generate_news d m = generate_news d' n -> d = d' /\ m = n.
Proof.
  unfold generate_news. intros H. injection H as _ Hd Hh _.
  split; [done|]. apply (inj (String.app _)) in Hh. by apply fmt_d_inj.
Qed.

Lemma generate_news_inj_witness :
  generate_news "2024/05/17" 3 = generate_news "2024/05/17" (1 + 2) /\
  "2024/05/17" = "2024/05/17" /\ 3 = 1 + 2.
Proof.
  assert (H : generate_news "2024/05/17" 3 = generate_news "2024/05/17" (1 + 2))
    by reflexivity.
  split; [exact H|]. exact (generate_news_inj _ _ _ _ H).
Defined.

(** ** Unsubscribing *)

(** X7. Unsubscribing works: when a queue registered once is removed, the
    call returns, and whatever calls follow (as long as the queue is not
    added again) the queue is not registered, receives nothing and holds
    what it held before. *)
Theorem removed_queue_left_alone (block : bool) (timeout : option Z)
    (q : handle) (s : state) (cs : list call) :
  let put := SimpleQueueProducer_put block timeout in
  registrations q (queues s) = 1%nat ->
  AddQueue q ∉ cs ->
  head (fst (exec put (RemoveQueue q :: cs) s)) = Some (Returned None) /\
  (q ∉ queues (snd (exec put (RemoveQueue q :: cs) s))) /\
  heap (snd (exec put (RemoveQueue q :: cs) s)) !! q = heap s !! q /\
  received q (during s (snd (exec put (RemoveQueue q :: cs) s))) = [].
Proof.
  intros put Hreg Hadd. subst put.
  set (put := SimpleQueueProducer_put block timeout) in *.
  assert (Hin : q ∈ queues s).
  { destruct (decide (q ∈ queues s)) as [|Hn]; [done|].
    apply registrations_0 in Hn. lia. }
  destruct (list_remove_elem q (queues s) Hin) as (pre & post & Hl & Hpre & Hr).
  assert (Hout : q ∉ pre ++ post).
  { rewrite Hl, registrations_app, registrations_cons in Hreg.
    apply registrations_0 in Hpre. rewrite decide_True in Hreg by done.
    apply not_elem_of_app. split; [by apply registrations_0|].
    apply registrations_0. lia. }
  assert (Hd : do_call put (RemoveQueue q) s = (Returned None, set_queues (pre ++ post) s)).
  { simpl. unfold remove_queue. by rewrite Hr. }
  rewrite (exec_cons_Returned put _ cs _ _ _ Hd). simpl.
  destruct (exec_events put cs (set_queues (pre ++ post) s)) as (l & Hh & _ & Hq).
  destruct (Hq q Hout Hadd) as [Hq' Hrec].
  split; [done|]. split; [done|]. split.
  - unfold put. rewrite (exec_heap block timeout cs _ l Hh q), Hrec. simpl.
    apply after_receiving_nil.
  - simpl in Hh. by rewrite (during_app _ _ _ Hh).
Qed.

Lemma removed_queue_left_alone_witness :
  let put := SimpleQueueProducer_put true None in
  let cs := [Produce (PyInt 1); Poison] in
  (registrations 0%nat (queues two_free) = 1%nat /\ (AddQueue 0%nat ∉ cs)) /\
  heap (snd (exec put (RemoveQueue 0%nat :: cs) two_free)) !! 0%nat = Some unbounded /\
  items <$> heap (snd (exec put (RemoveQueue 0%nat :: cs) two_free)) !! 1%nat
  = Some [PyInt 1; PyNone].
Proof.
  intros put cs.
  assert (H1 : registrations 0%nat (queues two_free) = 1%nat) by reflexivity.
  assert (H2 : AddQueue 0%nat ∉ cs).
  { unfold cs. rewrite !not_elem_of_cons.
    repeat split; try discriminate. apply not_elem_of_nil. }
  split; [exact (conj H1 H2)|].
  destruct (removed_queue_left_alone true None 0%nat two_free cs H1 H2) as (_ & _ & Hh & _).
  split; [exact Hh | vm_compute; reflexivity].
Defined.


(** * Further properties of the worker *)

Lemma produce_items_app l1 l2 :
  produce_items (l1 ++ l2) = produce_items l1 ++ produce_items l2.
Proof. apply omap_app. Qed.

(** Events that are not broadcasts count for nothing. *)
Lemma ncalls_0 l :
  ncalls l = 0%nat ->
  produce_items l = [] /\ nproduced l = 0%nat /\ npoisoned l = 0%nat.
Proof.
  unfold ncalls, nproduced, npoisoned.
  induction l as [|e l IH]; [done|]. simpl.
  destruct e; simpl; try done; try apply IH.
Qed.

Lemma npoisoned_snoc l e :
  npoisoned (l ++ [e]) = (npoisoned l + if is_poison e then 1 else 0)%nat.
Proof. rewrite npoisoned_app. unfold npoisoned. simpl. by destruct (is_poison e). Qed.

Lemma npoisoned_cons e l :
  npoisoned (e :: l) = ((if is_poison e then 1 else 0) + npoisoned l)%nat.
Proof. unfold npoisoned. simpl. by destruct (is_poison e). Qed.

Lemma stories_from_one_snoc L d c :
  stories_from_one L ->
  Z.of_nat (length L) = c - 1 ->
  stories_from_one (L ++ [PyNews (generate_news d c)]).
Proof.
  intros HL Hlen i x Hi.
  destruct (decide (i < length L)%nat) as [Hlt|Hge].
  - rewrite lookup_app_l in Hi by done. by apply HL.
  - rewrite lookup_app_r in Hi by lia.
    destruct (i - length L)%nat as [|n] eqn:E; simpl in Hi; [|done].
    injection Hi as <-. exists d. do 2 f_equal. lia.
Qed.

Section SafetyFacts.

Variable block : bool.
Variable timeout : option Z.

Lemma produce_history x s :
  exists l,
    history (final (produce (SimpleQueueProducer_put block timeout) x s))
    = history s ++ EvProduce (ncalls (history s)) x (queues s) :: l /\
    ncalls l = 0%nat.
Proof.
  unfold produce.
  destruct (broadcast_events (SimpleQueueProducer_put block timeout)
              (ncalls (history s)) x (queues s)
              (record (EvProduce (ncalls (history s)) x (queues s)) s))
    as (l & Hh & _ & Hn & _).
  exists l. simpl in Hh. by rewrite Hh, <- app_assoc.
Qed.

Lemma poison_history s :
  exists l,
    history (final (poison (SimpleQueueProducer_put block timeout) s))
    = history s ++ EvPoison (ncalls (history s)) (queues s) :: l /\
    ncalls l = 0%nat.
Proof.
  unfold poison.
  destruct (broadcast_events (SimpleQueueProducer_put block timeout)
              (ncalls (history s)) get_poison (queues s)
              (record (EvPoison (ncalls (history s)) (queues s)) s))
    as (l & Hh & _ & Hn & _).
  exists l. simpl in Hh. by rewrite Hh, <- app_assoc.
Qed.

(** What [after_call] keeps, and where it goes. *)
Lemma after_call_fields next w o :
  base (after_call next w o) = final o /\
  news_count (after_call next w o) = news_count w /\
  stop_request (after_call next w o) = stop_request w /\
  (at_pos (after_call next w o) = next \/
   at_pos (after_call next w o) = Waiting \/
   exists e, at_pos (after_call next w o) = Crashed e).
Proof. destruct o as [[] s|e s|s]; simpl; repeat split; eauto. Qed.

Lemma worker_safe_perform a w :
  worker_safe w -> worker_safe (perform block timeout w a).
Proof.
  intros (Hc & Hst & Hlen & Hpos).
  destruct (is_step a) eqn:E.
  - destruct a; try discriminate. simpl. unfold worker_safe, run_step, limit in *.
    destruct (at_pos w) eqn:Hp; simpl; rewrite ?Hp; try done.
    + (* LoopTest *)
      destruct (negb (stop_request w) && (news_count w <? 10)) eqn:Ht; simpl.
      * apply andb_true_iff in Ht as [_ Ht]. apply Z.ltb_lt in Ht. done.
      * rewrite produce_items_app, npoisoned_snoc, app_nil_r. simpl.
        repeat split; try done; lia.
    + (* CountTest *)
      destruct Hpos as [Hlt Hpo].
      destruct (0 <? length (queues (base w)))%nat; simpl.
      * rewrite !produce_items_app, !npoisoned_snoc, !app_nil_r. simpl.
        repeat split; try done; lia.
      * rewrite produce_items_app, npoisoned_snoc, app_nil_r. simpl.
        repeat split; try done; lia.
    + (* Producing *)
      set (x := PyNews _).
      destruct (produce_history x (base w)) as (l & Hh & Hn).
      destruct (ncalls_0 l Hn) as (Hi & _ & Hq).
      destruct (after_call_fields Sleeping w
                  (produce (SimpleQueueProducer_put block timeout) x (base w)))
        as (Hb & Hcount & _ & Hat).
      rewrite Hb, Hcount, Hh.
      rewrite produce_items_app, npoisoned_app, npoisoned_cons, Hq. simpl.
      rewrite Hi.
      split; [done|]. split; [by apply stories_from_one_snoc|].
      rewrite length_app. simpl.
      destruct Hat as [-> | [-> | [e ->]]]; (split; [lia|]); try lia; left; lia.
    + (* Poisoning *)
      destruct (poison_history (base w)) as (l & Hh & Hn).
      destruct (ncalls_0 l Hn) as (Hi & _ & Hq).
      destruct (after_call_fields Finished w
                  (poison (SimpleQueueProducer_put block timeout) (base w)))
        as (Hb & Hcount & _ & Hat).
      rewrite Hb, Hcount, Hh.
      rewrite produce_items_app. simpl. rewrite Hi, app_nil_r.
      split; [done|]. split; [done|].
      destruct Hat as [-> | [-> | [e ->]]]; (split; [lia|]);
        try right; by eexists _, _, _, _.
  - destruct (perform_other block timeout a w E) as (Hh & Hn & Hat & _).
    unfold worker_safe. rewrite Hh, Hn.
    destruct (at_pos w) eqn:Hp; try (rewrite Hat by discriminate; done).
    assert (Hor : at_pos (perform block timeout w a) = NotStarted \/
                  at_pos (perform block timeout w a) = LoopTest).
    { destruct a; simpl; try discriminate; unfold start, join, other_thread;
        rewrite ?Hp; simpl; auto. }
    destruct Hor as [-> | ->]; done.
Qed.

Lemma worker_safe_interleave h d sched :
  worker_safe (interleave block timeout sched (new_NewsProducer h d)).
Proof.
  induction sched as [|a sched IH] using rev_ind.
  - unfold worker_safe, limit. simpl. repeat split; done.
  - rewrite interleave_snoc. by apply worker_safe_perform.
Qed.

(** X8. Whatever the other threads do (register, unregister, join, at any
    moment), the count of the worker stays between 0 and 10, the worker
    makes at most 10 produce calls, and the calls carry the stories 1, 2,
    3, ... in this order without a gap or a repeat: as many as the count, or
    one fewer while the story of the count is about to be produced. *)
Theorem worker_count_and_stories (h : gmap handle Queue) (d : string)
    (sched : list action) :
  let w := interleave block timeout sched (new_NewsProducer h d) in
  0 <= news_count w <= 10 /\
  (length (produce_items (history (base w))) <= 10)%nat /\
  news_count w - 1 <= Z.of_nat (length (produce_items (history (base w)))) <= news_count w /\
  stories_from_one (produce_items (history (base w))).
Proof.
  intros w. destruct (worker_safe_interleave h d sched) as (Hc & Hst & Hlen & _).
  fold w in Hc, Hst, Hlen. unfold limit in Hc.
  split; [done|]. split; [|split; [|done]]; destruct (at_pos w); lia.
Qed.

(** X9. Whatever the other threads do, the worker makes at most one poison
    broadcast, only once it has left the loop, and that broadcast is its
    last: no produce call and no second poison follows it. *)
Theorem worker_poisons_once (h : gmap handle Queue) (d : string)
    (sched : list action) :
  let w := interleave block timeout sched (new_NewsProducer h d) in
  (npoisoned (history (base w)) = 0%nat /\ at_pos w <> Finished) \/
  (running w = false /\
   exists l1 j qs l2,
     history (base w) = l1 ++ EvPoison j qs :: l2 /\
     npoisoned l1 = 0%nat /\ nproduced l2 = 0%nat /\ npoisoned l2 = 0%nat).
Proof.
  intros w. destruct (worker_safe_interleave h d sched) as (_ & _ & _ & Hpos).
  fold w in Hpos. unfold running.
  destruct (at_pos w) eqn:E; try (left; split; [tauto | done]).
  - right. split; [done|]. destruct Hpos as (l1 & j & qs & l2 & Hl & H1 & H2).
    destruct (ncalls_0 l2 H2) as (_ & ? & ?). by exists l1, j, qs, l2.
  - destruct Hpos as [H0 | (l1 & j & qs & l2 & Hl & H1 & H2)]; [by left|].
    right. split; [done|].
    destruct (ncalls_0 l2 H2) as (_ & ? & ?). by exists l1, j, qs, l2.
  - destruct Hpos as [H0 | (l1 & j & qs & l2 & Hl & H1 & H2)]; [by left|].
    right. split; [done|].
    destruct (ncalls_0 l2 H2) as (_ & ? & ?). by exists l1, j, qs, l2.
Qed.

(** *** A worker without subscribers *)

Lemma idle_perform a w :
  (match a with Add _ | Join => false | _ => true end) = true ->
  queues (base w) = [] /\ stop_request w = false /\ news_count w = 0 /\
    ncalls (history (base w)) = 0%nat /\ running w = true /\ at_pos w <> Producing ->
  let w' := perform block timeout w a in
  queues (base w') = [] /\ stop_request w' = false /\ news_count w' = 0 /\
    ncalls (history (base w')) = 0%nat /\ running w' = true /\ at_pos w' <> Producing.
Proof.
  intros Ha (Hq & Hs & Hc & Hn & Hr & Hp). unfold running in *.
  destruct a; try discriminate; simpl.
  - (* Start *)
    unfold start. destruct (at_pos w) eqn:E; try discriminate; simpl;
      rewrite ?E; repeat split; done.
  - (* Step *)
    unfold run_step.
    destruct (at_pos w) eqn:E; try discriminate; try done; simpl.
    + rewrite Hs, Hc. simpl. repeat split; done.
    + rewrite Hq. simpl. rewrite ncalls_app, Hn. repeat split; done.
  - (* Remove *)
    unfold other_thread, remove_queue. rewrite Hq. simpl.
    destruct (at_pos w) eqn:E; try discriminate; simpl; rewrite ?E;
      repeat split; done.
  - (* Count *)
    unfold other_thread.
    destruct (at_pos w) eqn:E; try discriminate; simpl; rewrite ?E;
      repeat split; done.
  - (* Clock *)
    rewrite Hr. repeat split; done.
Qed.

(** X10. A worker that has no subscriber, gets none and is not asked to
    stop keeps idling: whatever the number of ticks, it produces nothing,
    sends no poison, its count stays 0 and its thread does not end. *)
Theorem idle_without_subscribers (h : gmap handle Queue) (d : string)
    (sched : list action) :
  never_adds sched = true ->
  never_asked_to_stop sched = true ->
  let w := interleave block timeout sched (start (new_NewsProducer h d)) in
  news_count w = 0 /\
  ncalls (history (base w)) = 0%nat /\
  running w = true /\ terminated w = false.
Proof.
  intros Hadd Hjoin w.
  assert (H : queues (base w) = [] /\ stop_request w = false /\ news_count w = 0 /\
              ncalls (history (base w)) = 0%nat /\ running w = true /\
              at_pos w <> Producing).
  { subst w. induction sched as [|a sched IH] using rev_ind.
    - simpl. repeat split; done.
    - unfold never_adds, never_asked_to_stop in Hadd, Hjoin.
      rewrite forallb_app in Hadd, Hjoin.
      apply andb_true_iff in Hadd as [Hadd Ha], Hjoin as [Hjoin Hj].
      rewrite interleave_snoc. apply idle_perform; [|by apply IH].
      simpl in Ha, Hj. by destruct a. }
  destruct H as (_ & _ & Hc & Hn & Hr & _).
  split; [done|]. split; [done|]. split; [done|].
  unfold running, terminated in *. by destruct (at_pos w).
Qed.

(** *** Subscribers without a bound *)

Lemma broadcast_cannot_fail k x (s0 : state) :
  all_unbounded (heap s0) ->
  (forall q, q ∈ queues s0 -> is_Some (heap s0 !! q)) ->
  exists s',
    broadcast (SimpleQueueProducer_put block timeout) k x (queues s0) s0 = Return tt s' /\
    queues s' = queues s0 /\
    all_unbounded (heap s') /\
    (forall q, is_Some (heap s0 !! q) -> is_Some (heap s' !! q)).
Proof.
  intros Hall Hin.
  destruct (broadcast_unbounded block timeout k x (queues s0) s0) as (s' & H).
  { intros q Hq. destruct (Hin q Hq) as [Q HQ]. exists Q. split; [done|]. by eapply Hall. }
  exists s'. split; [done|].
  pose proof (broadcast_Return_heap _ _ _ _ _ _ _ H) as Hh.
  apply broadcast_Return in H as [Hq _]. split; [done|]. split.
  - intros q Q'. rewrite Hh. destruct (heap s0 !! q) as [Q|] eqn:E; [|done].
    simpl. intros [= <-]. simpl. by eapply Hall.
  - intros q [Q HQ]. rewrite Hh, HQ. by eexists.
Qed.

Lemma cannot_fail_same_heap h w w' :
  heap (base w') = heap (base w) ->
  (forall q, q ∈ queues (base w') -> q ∈ queues (base w) \/ is_Some (h !! q)) ->
  at_pos w' <> Waiting ->
  (forall e, at_pos w' <> Crashed e) ->
  cannot_fail h w -> cannot_fail h w'.
Proof.
  intros Hheap Hq Hw' Hc' (Hall & Hh & Hin & _ & _). unfold cannot_fail.
  rewrite Hheap. split; [done|]. split; [done|]. split; [|done].
  intros q Hq0. destruct (Hq q Hq0) as [?|?]; eauto.
Qed.

Lemma cannot_fail_after_broadcast h w next k x ev :
  cannot_fail h w ->
  next <> Waiting -> (forall e, next <> Crashed e) ->
  cannot_fail h
    (after_call next w
       (broadcast (SimpleQueueProducer_put block timeout) k x (queues (base w))
          (record ev (base w)))).
Proof.
  intros (Hall & Hh & Hin & _ & _) Hn Hc.
  destruct (broadcast_cannot_fail k x (record ev (base w)) Hall Hin)
    as (s' & H & Hq & Hall' & Hh').
  simpl in H. rewrite H. unfold cannot_fail. simpl. rewrite Hq. simpl.
  split; [done|]. split; [by eauto|]. split; [by eauto | done].
Qed.

Lemma cannot_fail_perform h a w :
  (match a with Add q => bool_decide (is_Some (h !! q)) | _ => true end) = true ->
  cannot_fail h w -> cannot_fail h (perform block timeout w a).
Proof.
  intros Ha Hcf. pose proof Hcf as (_ & _ & _ & Hw & Hc).
  destruct a; simpl.
  - (* Start *)
    unfold start. destruct (at_pos w) eqn:E; try done.
    apply (cannot_fail_same_heap h w); simpl; by eauto.
  - (* Step *)
    unfold run_step. destruct (at_pos w) eqn:E; try done.
    + destruct (negb (stop_request w) && (news_count w <? limit));
        apply (cannot_fail_same_heap h w); simpl; by eauto.
    + simpl. destruct (0 <? length (queues (base w)))%nat;
        apply (cannot_fail_same_heap h w); simpl; by eauto.
    + by apply cannot_fail_after_broadcast.
    + apply (cannot_fail_same_heap h w); simpl; by eauto.
    + by apply cannot_fail_after_broadcast.
  - (* Join *)
    apply (cannot_fail_same_heap h w); simpl; by eauto.
  - (* Add *)
    apply bool_decide_eq_true in Ha. unfold other_thread.
    assert (Hp : at_pos w <> Waiting) by done.
    destruct (at_pos w) eqn:E; try done;
      (apply (cannot_fail_same_heap h w); simpl; rewrite ?E; try done;
       intros q0 Hq0; apply elem_of_app in Hq0 as [Hq0|Hq0]; [by left|];
       apply elem_of_cons in Hq0 as [->|Hq0]; [by right | by apply elem_of_nil in Hq0]).
  - (* Remove *)
    unfold other_thread, remove_queue.
    destruct (list_remove q (queues (base w))) as [r|] eqn:Er;
      destruct (at_pos w) eqn:E; try done;
      (apply (cannot_fail_same_heap h w); simpl; rewrite ?E; try done;
       intros q0 Hq0; left; eauto using list_remove_Some_elem).
  - (* Count *)
    unfold other_thread.
    destruct (at_pos w) eqn:E; try done;
      (apply (cannot_fail_same_heap h w); simpl; rewrite ?E; by eauto).
  - (* Clock *)
    apply (cannot_fail_same_heap h w); simpl; by eauto.
Qed.

Lemma cannot_fail_interleave h d sched :
  all_unbounded h ->
  adds_known h sched = true ->
  cannot_fail h (interleave block timeout sched (start (new_NewsProducer h d))).
Proof.
  intros Hall. induction sched as [|a sched IH] using rev_ind; intros Hadd.
  - unfold cannot_fail. simpl. repeat split; try done.
    intros q Hq. by apply elem_of_nil in Hq.
  - unfold adds_known in Hadd. rewrite forallb_app in Hadd.
    apply andb_true_iff in Hadd as [Hadd Ha]. simpl in Ha. rewrite andb_true_r in Ha.
    rewrite interleave_snoc. apply cannot_fail_perform; [done | by apply IH].
Qed.

(** X11. When all queue objects are without a bound, no insertion can fail
    and the worker neither dies of an exception nor gets stuck, whatever the
    other threads register or remove and whatever [block] and [timeout]
    are.  If moreover it is not asked to stop and finds a subscriber at
    every tick, 42 steps take it to the end of [run] with a count of 10. *)
Theorem unbounded_worker_completes (h : gmap handle Queue) (d : string)
    (sched : list action) :
  all_unbounded h ->
  adds_known h sched = true ->
  let w := interleave block timeout sched (start (new_NewsProducer h d)) in
  at_pos w <> Waiting /\
  (forall e, at_pos w <> Crashed e) /\
  (never_asked_to_stop sched = true ->
   every_tick_found_a_subscriber (history (base w)) = true ->
   (42 <= steps sched)%nat ->
   at_pos w = Finished /\ news_count w = 10).
Proof.
  intros Hall Hadd w.
  destruct (cannot_fail_interleave h d sched Hall Hadd) as (_ & _ & _ & Hw & Hc).
  fold w in Hw, Hc. split; [done|]. split; [done|].
  intros Hstop Htick Hk. apply every_tick_found_a_subscriber_spec in Htick.
  assert (H0 : on_schedule 0 (start (new_NewsProducer h d))).
  { unfold on_schedule, limit. simpl. repeat split; done. }
  pose proof (on_schedule_interleave block timeout sched _ H0 Hstop Htick) as [_ Hinv].
  fold w in Hinv. unfold limit in Hinv.
  destruct (at_pos w) eqn:E; try done; try lia.
  - by destruct Hinv.
  - by destruct (Hc e).
Qed.

(** *** Producers that do not wait *)

Lemma broadcast_never_Blocks k x qs s s' :
  block = false \/ timeout <> None ->
  broadcast (SimpleQueueProducer_put block timeout) k x qs s <> Blocks s'.
Proof.
  intros Hnb H. apply broadcast_Blocks in H as (pre & q & post & s1 & _ & _ & Hq & _).
  unfold SimpleQueueProducer_put in Hq. destruct (heap s1 !! q) as [Q|]; [|done].
  unfold Queue_put in Hq. destruct (0 <? maxsize Q); [|done].
  destruct Hnb as [-> | Hto].
  - simpl in Hq. by destruct (maxsize Q <=? Queue_qsize Q).
  - destruct (negb block); [by destruct (maxsize Q <=? Queue_qsize Q)|].
    destruct timeout as [t|]; [|done].
    destruct (t <? 0); [done|]. by destruct (maxsize Q <=? Queue_qsize Q).
Qed.

Lemma never_Waiting_perform a w :
  block = false \/ timeout <> None ->
  at_pos w <> Waiting -> at_pos (perform block timeout w a) <> Waiting.
Proof.
  intros Hnb Hw. destruct (is_step a) eqn:E.
  - destruct a; try discriminate. simpl. unfold run_step.
    destruct (at_pos w) eqn:Hp; simpl; rewrite ?Hp; try done.
    + by destruct (negb (stop_request w) && (news_count w <? limit)); simpl.
    + by destruct (0 <? length (queues (base w)))%nat; simpl.
    + unfold produce.
      destruct (broadcast _ _ _ _ _) as [[] s'|e s'|s'] eqn:Hb; simpl; try done.
      by apply broadcast_never_Blocks in Hb.
    + unfold poison.
      destruct (broadcast _ _ _ _ _) as [[] s'|e s'|s'] eqn:Hb; simpl; try done.
      by apply broadcast_never_Blocks in Hb.
  - destruct (perform_other block timeout a w E) as (_ & _ & Hat & _).
    destruct (at_pos w) eqn:Hp; try (rewrite Hat; done).
    destruct a; simpl; try discriminate; unfold start, join, other_thread;
      rewrite ?Hp; simpl; rewrite ?Hp; done.
Qed.

Lemma never_Waiting_interleave sched w :
  block = false \/ timeout <> None ->
  at_pos w <> Waiting -> at_pos (interleave block timeout sched w) <> Waiting.
Proof.
  intros Hnb. revert w. induction sched as [|a sched IH]; intros w Hw; simpl; [done|].
  apply IH. by apply never_Waiting_perform.
Qed.

(** X12. A producer that does not block, or that blocks with a timeout,
    never waits for ever in an insertion.  For such a worker a join issued
    inside the loop always ends the thread: five steps later it is over,
    finished or dead of the exception of an insertion. *)
Theorem join_ends_worker_that_does_not_wait (w : NewsProducer) (sched : list action) :
  block = false \/ timeout <> None ->
  running w = true ->
  (5 <= steps sched)%nat ->
  at_pos (interleave block timeout sched (join w)) <> Waiting /\
  terminated (interleave block timeout sched (join w)) = true.
Proof.
  intros Hnb Hrun H5.
  assert (Hw : at_pos (interleave block timeout sched (join w)) <> Waiting).
  { apply never_Waiting_interleave; [done|]. unfold running in Hrun. simpl.
    by destruct (at_pos w). }
  split; [done|].
  destruct (stopping_interleave block timeout w sched Hrun) as (_ & _ & _ & Hk).
  unfold terminated.
  destruct (at_pos (interleave block timeout sched (join w))); simpl in Hk; try done; lia.
Qed.

(** *** One subscriber from the start to the end *)

Lemma put_into_unbounded x q (s : state) (Q1 : Queue) k :
  heap s !! q = Some Q1 -> maxsize Q1 <= 0 ->
  broadcast (SimpleQueueProducer_put block timeout) k x [q] s
  = Return tt (record (EvPut k q x Delivered)
                 (set_heap (<[q := Queue_append x Q1]> (heap s)) s)).
Proof.
  intros HQ Hm. simpl. unfold SimpleQueueProducer_put.
  by rewrite HQ, (Queue_put_unbounded _ _ _ _ Hm).
Qed.

Lemma serving_perform q Q k a w :
  maxsize Q <= 0 ->
  (match a with Step | Count | Clock _ => true | _ => false end) = true ->
  serving q Q k w ->
  serving q Q (k + if is_step a then 1 else 0) (perform block timeout w a).
Proof.
  intros Hm Ha (Hq & Hs & L & HL & Hh & Hpos). unfold serving, limit in *.
  destruct a; try discriminate; simpl.
  - (* Step *)
    unfold run_step, limit.
    destruct (at_pos w) eqn:E; try done.
    + (* LoopTest *)
      rewrite Hs. simpl. destruct (Z.ltb_spec (news_count w) 10); simpl.
      * split; [done|]. split; [done|]. exists L. repeat split; try done; lia.
      * split; [done|]. split; [done|]. exists L. repeat split; try done; lia.
    + (* CountTest *)
      simpl. rewrite Hq. simpl.
      split; [done|]. split; [done|]. exists L. repeat split; try done; lia.
    + (* Producing *)
      set (x := PyNews (generate_news (today w) (news_count w))).
      unfold produce. rewrite Hq.
      rewrite (put_into_unbounded x q
                 (record (EvProduce (ncalls (history (base w))) x [q]) (base w))
                 _ (ncalls (history (base w))) Hh Hm).
      simpl.
      split; [done|]. split; [done|]. exists (L ++ [x]).
      split; [apply stories_from_one_snoc; [done | lia]|].
      split.
      * rewrite lookup_insert_eq. unfold Queue_append. simpl.
        by rewrite !app_nil_r, app_assoc.
      * rewrite length_app. simpl. lia.
    + (* Sleeping *)
      simpl. split; [done|]. split; [done|]. exists L. repeat split; try done; lia.
    + (* Poisoning *)
      unfold poison. rewrite Hq.
      rewrite (put_into_unbounded get_poison q
                 (record (EvPoison (ncalls (history (base w))) [q]) (base w))
                 _ (ncalls (history (base w))) Hh Hm).
      simpl.
      split; [done|]. split; [done|]. exists L. split; [done|]. split.
      * rewrite lookup_insert_eq. unfold Queue_append, get_poison. simpl.
        by rewrite !app_nil_r, app_assoc.
      * lia.
    + (* Finished *)
      rewrite ?E. split; [done|]. split; [done|]. exists L. rewrite ?E.
      repeat split; try done; lia.
  - (* Count *)
    unfold other_thread. rewrite Nat.add_0_r.
    destruct (at_pos w) eqn:E; try done; simpl; rewrite E;
      (split; [done|]; split; [done|]; by exists L).
  - (* Clock *)
    rewrite Nat.add_0_r. split; [done|]. split; [done|]. by exists L.
Qed.

(** X13. The whole course of a subscription.  When a queue without a bound
    is the one subscriber from the start, and the worker is left alone (no
    registration, no removal, no join), 42 steps end the worker, and the
    queue then holds what it held before, followed by the ten stories 1 to
    10 in this order, followed by the poison item None, and nothing else. *)
Theorem subscriber_gets_ten_stories_then_None (h : gmap handle Queue) (d : string)
    (q : handle) (Q : Queue) (sched : list action) :
  h !! q = Some Q ->
  maxsize Q <= 0 ->
  undisturbed sched = true ->
  (42 <= steps sched)%nat ->
  let w := interleave block timeout ([Add q; Start] ++ sched) (new_NewsProducer h d) in
  at_pos w = Finished /\
  news_count w = 10 /\
  exists L,
    length L = 10%nat /\ stories_from_one L /\
    heap (base w) !! q
    = Some {| maxsize := maxsize Q; items := items Q ++ L ++ [PyNone] |}.
Proof.
  intros HQ Hm Hund Hk w.
  assert (H : serving q Q (steps sched) w).
  { subst w. clear Hk. induction sched as [|a sched IH] using rev_ind.
    - unfold serving, limit. simpl. split; [done|]. split; [done|]. exists [].
      split; [done|]. split; [|done].
      rewrite HQ. f_equal. destruct Q. simpl. by rewrite app_nil_r.
    - unfold undisturbed in Hund. rewrite forallb_app in Hund.
      apply andb_true_iff in Hund as [Hund Ha]. simpl in Ha. rewrite andb_true_r in Ha.
      rewrite app_assoc, interleave_snoc, steps_snoc.
      apply serving_perform; [done | done | by apply IH]. }
  destruct H as (_ & _ & L & HL & Hh & Hpos). unfold limit in Hpos.
  destruct (at_pos w) eqn:E; try done; try lia.
  destruct Hpos as (Hc & _ & Hlen).
  split; [done|]. split; [done|]. exists L. split; [lia|]. split; done.
Qed.

(** *** A stop request before the start *)

(** X14. [join] sets the stop request whether or not the thread has been
    started.  A worker that is started after a join never enters the loop:
    it produces nothing, its count does not move, and within three steps it
    has sent its one poison broadcast and finished, unless an insertion of
    the poison raises or is stuck. *)
Theorem stop_before_start (w : NewsProducer) (sched : list action) :
  at_pos w = NotStarted ->
  let wf := interleave block timeout sched (start (join w)) in
  stop_request wf = true /\
  news_count wf = news_count w /\
  nproduced (history (base wf)) = nproduced (history (base w)) /\
  ((3 <= steps sched)%nat ->
   at_pos wf <> Waiting -> (forall e, at_pos wf <> Crashed e) ->
   at_pos wf = Finished).
Proof.
  intros Hns wf.
  assert (Heq : start (join w) = join (start w)).
  { unfold start, join. simpl. by rewrite Hns. }
  assert (Hpos : at_pos (start w) = Sleeping \/ at_pos (start w) = LoopTest).
  { right. unfold start. by rewrite Hns. }
  destruct (winding_down_interleave block timeout (start w) sched Hpos)
    as (Hstop & Hn & (l & Hl & Hnp) & Hinv).
  rewrite <- Heq in Hstop, Hn, Hl, Hinv. fold wf in Hstop, Hn, Hl, Hinv.
  assert (Hb : base (start w) = base w /\ news_count (start w) = news_count w).
  { unfold start. by rewrite Hns. }
  destruct Hb as [Hb Hc]. rewrite Hb in Hl. rewrite Hc in Hn.
  split; [done|]. split; [done|]. split; [rewrite Hl, nproduced_app; lia|].
  intros H3 Hw Hcr. destruct (at_pos wf); try done; try lia.
  by destruct (Hcr e).
Qed.

(** *** After the end of the thread *)



(** *** A worker that waits holds the mutex *)


(** *** The log *)

Lemma log_lines_app l1 l2 : log_lines (l1 ++ l2) = log_lines l1 ++ log_lines l2.
Proof. apply omap_app. Qed.

Lemma producing_lines_S n :
  producing_lines (S n)
  = producing_lines n ++ ["Producing news: " +:+ fmt_d (Z.of_nat (S n))].
Proof. unfold producing_lines. by rewrite seq_S, map_app. Qed.

Lemma broadcast_log_lines k x qs s :
  log_lines (history (final (broadcast (SimpleQueueProducer_put block timeout) k x qs s)))
  = log_lines (history s).
Proof.
  revert s. induction qs as [|q qs IH]; intros s; simpl; [done|].
  destruct (SimpleQueueProducer_put block timeout x q (heap s)); simpl.
  - rewrite IH. simpl. by rewrite log_lines_app, app_nil_r.
  - by rewrite log_lines_app, app_nil_r.
  - by rewrite log_lines_app, app_nil_r.
Qed.

Lemma logged_perform a w :
  (0 <= news_count w /\
   exists b, left_loop w b /\
     log_lines (history (base w))
     = producing_lines (Z.to_nat (news_count w)) ++
       if b then ["Sending poison pill!"] else []) ->
  let w' := perform block timeout w a in
  0 <= news_count w' /\
  exists b, left_loop w' b /\
    log_lines (history (base w'))
    = producing_lines (Z.to_nat (news_count w')) ++
      if b then ["Sending poison pill!"] else [].
Proof.
  intros (Hc & b & Hb & Hl). unfold left_loop in *.
  destruct (is_step a) eqn:E.
  - destruct a; try discriminate. simpl. unfold run_step.
    destruct (at_pos w) eqn:Hp; simpl; rewrite ?Hp.
    + split; [done|]. by exists b.
    + (* LoopTest *)
      subst b. rewrite app_nil_r in Hl.
      destruct (negb (stop_request w) && (news_count w <? limit)); simpl.
      * split; [done|]. exists false. by rewrite app_nil_r.
      * split; [done|]. exists true. by rewrite log_lines_app, Hl.
    + (* CountTest *)
      subst b. rewrite app_nil_r in Hl.
      destruct (0 <? length (queues (base w)))%nat; simpl.
      * split; [lia|]. exists false. split; [done|].
        rewrite !log_lines_app, Hl. simpl. rewrite !app_nil_r.
        replace (Z.to_nat (news_count w + 1)) with (S (Z.to_nat (news_count w))) by lia.
        rewrite producing_lines_S. do 4 f_equal. lia.
      * split; [done|]. exists false. split; [done|].
        by rewrite log_lines_app, Hl, !app_nil_r.
    + (* Producing *)
      destruct (after_call_fields Sleeping w
                  (produce (SimpleQueueProducer_put block timeout)
                     (PyNews (generate_news (today w) (news_count w))) (base w)))
        as (Hbase & Hcount & _ & Hat).
      rewrite Hbase, Hcount. split; [done|]. exists false. subst b.
      split; [by destruct Hat as [-> | [-> | [e ->]]]|].
      unfold produce. rewrite broadcast_log_lines. simpl.
      by rewrite log_lines_app, Hl, !app_nil_r.
    + (* Sleeping *)
      split; [done|]. by exists b.
    + (* Poisoning *)
      destruct (after_call_fields Finished w
                  (poison (SimpleQueueProducer_put block timeout) (base w)))
        as (Hbase & Hcount & _ & Hat).
      rewrite Hbase, Hcount. split; [done|]. exists true. subst b.
      split; [by destruct Hat as [-> | [-> | [e ->]]]|].
      unfold poison. rewrite broadcast_log_lines. simpl.
      by rewrite log_lines_app, Hl, !app_nil_r.
    + split; [done|]. by exists b.
    + split; [done|]. by exists b.
    + split; [done|]. by exists b.
  - destruct (perform_other block timeout a w E) as (Hh & Hn & Hat & _).
    simpl. rewrite Hh, Hn. split; [done|]. exists b. split; [|done].
    destruct (at_pos w) eqn:Hp; try (rewrite Hat by discriminate; done).
    assert (Hor : at_pos (perform block timeout w a) = NotStarted \/
                  at_pos (perform block timeout w a) = LoopTest).
    { destruct a; simpl; try discriminate; unfold start, join, other_thread;
        rewrite ?Hp; simpl; auto. }
    by destruct Hor as [-> | ->].
Qed.

(** X17. The log tells the count.  In every interleaving the lines given to
    [_log] are "Producing news: 1", "Producing news: 2", ... up to the
    current count, in this order, followed by one "Sending poison pill!"
    once the worker has left the loop, and nothing else. *)
Theorem log_tells_the_count (h : gmap handle Queue) (d : string) (sched : list action) :
  let w := interleave block timeout sched (new_NewsProducer h d) in
  exists b,
    left_loop w b /\
    log_lines (history (base w))
    = producing_lines (Z.to_nat (news_count w)) ++
      if b then ["Sending poison pill!"] else [].
Proof.
  intros w.
  assert (H : 0 <= news_count w /\
              exists b, left_loop w b /\
                log_lines (history (base w))
                = producing_lines (Z.to_nat (news_count w)) ++
                  if b then ["Sending poison pill!"] else []).
  { subst w. induction sched as [|a sched IH] using rev_ind.
    - simpl. split; [done|]. by exists false.
    - rewrite interleave_snoc. by apply logged_perform. }
  by destruct H.
Qed.

End SafetyFacts.


(** *** The worker on further concrete schedules *)

Lemma all_unbounded_heap_two_free : all_unbounded heap_two_free.
Proof.
  intros q Q H. unfold heap_two_free in H.
  apply lookup_insert_Some in H as [[_ <-]|[_ H]]; [simpl; lia|].
  apply lookup_insert_Some in H as [[_ <-]|[_ H]]; [simpl; lia|].
  by rewrite lookup_empty in H.
Defined.

Lemma idle_without_subscribers_witness :
  let sched := repeat Step 30 ++ [Remove 0%nat; Count] ++ repeat Step 30 in
  let w := interleave true None sched (start (new_NewsProducer heap_two_free "2024/05/17")) in
  (never_adds sched = true /\ never_asked_to_stop sched = true) /\
  news_count w = 0 /\
  ncalls (history (base w)) = 0%nat /\
  running w = true /\ terminated w = false.
Proof.
  intros sched w.
  assert (H1 : never_adds sched = true) by (vm_compute; reflexivity).
  assert (H2 : never_asked_to_stop sched = true) by (vm_compute; reflexivity).
  split; [exact (conj H1 H2)|].
  exact (idle_without_subscribers true None heap_two_free "2024/05/17" sched H1 H2).
Defined.

Lemma unbounded_worker_completes_witness :
  let sched := Add 0%nat :: repeat Step 20 ++ [Add 1%nat; Remove 0%nat] ++ repeat Step 22 in
  let w := interleave false (Some 0) sched
             (start (new_NewsProducer heap_two_free "2024/05/17")) in
  (all_unbounded heap_two_free /\ adds_known heap_two_free sched = true) /\
  at_pos w = Finished /\ news_count w = 10.
Proof.
  intros sched w.
  assert (H : adds_known heap_two_free sched = true) by (vm_compute; reflexivity).
  split; [exact (conj all_unbounded_heap_two_free H)|].
  destruct (unbounded_worker_completes false (Some 0) heap_two_free "2024/05/17" sched
              all_unbounded_heap_two_free H) as (_ & _ & Hf).
  apply Hf; [vm_compute; reflexivity | vm_compute; reflexivity | vm_compute; lia].
Defined.

Lemma join_ends_worker_that_does_not_wait_witness :
  let w := interleave false None (repeat Step 9) slow_subscriber in
  let wf := interleave false None (repeat Step 5) (join w) in
  ((false = false \/ @None Z <> None) /\ running w = true /\
   (5 <= steps (repeat Step 5))%nat) /\
  terminated wf = true /\
  at_pos wf = Crashed Full.
Proof.
  intros w wf.
  assert (H1 : false = false \/ @None Z <> None) by (left; reflexivity).
  assert (H2 : running w = true) by (vm_compute; reflexivity).
  assert (H3 : (5 <= steps (repeat Step 5))%nat) by (vm_compute; lia).
  split; [exact (conj H1 (conj H2 H3))|].
  split; [|vm_compute; reflexivity].
  exact (proj2 (join_ends_worker_that_does_not_wait false None w (repeat Step 5) H1 H2 H3)).
Defined.

Lemma subscriber_gets_ten_stories_then_None_witness :
  let h : gmap handle Queue := <[0%nat := unbounded]> ∅ in
  let sched := repeat Step 21 ++ [Clock "2024/05/18"; Count] ++ repeat Step 21 in
  let w := interleave true None ([Add 0%nat; Start] ++ sched)
             (new_NewsProducer h "2024/05/17") in
  (h !! 0%nat = Some unbounded /\ maxsize unbounded <= 0 /\
   undisturbed sched = true /\ (42 <= steps sched)%nat) /\
  at_pos w = Finished /\
  news_count w = 10 /\
  exists L,
    length L = 10%nat /\ stories_from_one L /\
    heap (base w) !! 0%nat
    = Some {| maxsize := maxsize unbounded; items := items unbounded ++ L ++ [PyNone] |}.
Proof.
  intros h sched w.
  assert (H1 : h !! 0%nat = Some unbounded) by reflexivity.
  assert (H2 : maxsize unbounded <= 0) by (simpl; lia).
  assert (H3 : undisturbed sched = true) by (vm_compute; reflexivity).
  assert (H4 : (42 <= steps sched)%nat) by (vm_compute; lia).
  split; [exact (conj H1 (conj H2 (conj H3 H4)))|].
  exact (subscriber_gets_ten_stories_then_None true None h "2024/05/17" 0%nat unbounded
           sched H1 H2 H3 H4).
Defined.

Lemma stop_before_start_witness :
  let w := interleave true None [Add 0%nat] (new_NewsProducer heap_two_free "2024/05/17") in
  let wf := interleave true None (repeat Step 3) (start (join w)) in
  at_pos w = NotStarted /\
  news_count wf = 0 /\
  nproduced (history (base wf)) = 0%nat /\
  at_pos wf = Finished /\
  items <$> heap (base wf) !! 0%nat = Some [PyNone].
Proof.
  intros w wf.
  assert (H : at_pos w = NotStarted) by reflexivity.
  destruct (stop_before_start true None w (repeat Step 3) H) as (_ & Hc & Hp & Hf).
  split; [exact H|]. split; [exact Hc|]. split; [exact Hp|].
  split; [|vm_compute; reflexivity].
  apply Hf; [vm_compute; lia | vm_compute; discriminate | intros e; vm_compute; discriminate].
Defined.


